(** * record_collection: the Discogs collection normaliser ([discogs.py])

    A shallow embedding of [clean_text], [join_names], [summarize_formats],
    [pick] and the loop of [fetch_rows], together with the properties of
    the reconciliation pipeline.

    Python values are the decoded JSON values the Discogs client hands
    over.  Strings are sequences of characters with code points below
    256; dictionaries are association lists in insertion order (a
    well-formed one has no repeated key, lookups take the first binding).
    A Python exception is the [Raise] branch of [result].  The client is a
    function from release ids to replies and the collection a list of
    items.  The pause before each item, the detail requests and the
    printed lines have no part in the rows; a second reading of the loop
    ([fetch_rows_traced]) logs them as events, printing and pausing being
    taken to succeed. *)

From Stdlib Require Import Floats.PrimFloat Ascii.
From stdpp Require Import base strings list gmap pretty.

Open Scope string_scope.
Open Scope list_scope.
Set Warnings "-register-all,-clear-no-such-hyp".

(** ** Characters and strings *)

Module Str.

(** [str.isspace] on one character: the ASCII white space
    (tab, LF, VT, FF, CR, FS, GS, RS, US, space) and, above 127,
    NEL (0x85) and the no-break space (0xA0).  The same class is matched
    by the regular expression [\s] on a [str] pattern and removed by
    [str.strip()]. *)
Definition is_space (c : ascii) : bool :=
  let n := Ascii.N_of_ascii c in
  ((9 <=? n) && (n <=? 13) || (28 <=? n) && (n <=? 32)
   || (n =? 133) || (n =? 160))%N.

(** [s.replace(old, new)] for one-character [old] and [new]. *)
Fixpoint replace (old new : ascii) (s : string) : string :=
  match s with
  | EmptyString => EmptyString
  | String c s' =>
      String (if Ascii.eqb c old then new else c) (replace old new s')
  end.

(** [re.sub(r"\s+", " ", s)]: every maximal run of white space becomes
    one space.  [in_run] says that the previous character belonged to a
    run that has already been replaced. *)
Fixpoint sub_ws (in_run : bool) (s : string) : string :=
  match s with
  | EmptyString => EmptyString
  | String c s' =>
      if is_space c
      then (if in_run then sub_ws true s' else String " " (sub_ws true s'))
      else String c (sub_ws false s')
  end.

Fixpoint lstrip (s : string) : string :=
  match s with
  | EmptyString => EmptyString
  | String c s' => if is_space c then lstrip s' else s
  end.

Fixpoint rstrip (s : string) : string :=
  match s with
  | EmptyString => EmptyString
  | String c s' =>
      match rstrip s' with
      | EmptyString => if is_space c then EmptyString else String c EmptyString
      | r => String c r
      end
  end.

(** [s.strip()] *)
Definition strip (s : string) : string := rstrip (lstrip s).

(** [str.lower] on one character of the Latin-1 range. *)
Definition lower_char (c : ascii) : ascii :=
  let n := Ascii.N_of_ascii c in
  if ((65 <=? n) && (n <=? 90)
      || (192 <=? n) && (n <=? 222) && negb (n =? 215))%N
  then Ascii.ascii_of_N (n + 32) else c.

Fixpoint lower (s : string) : string :=
  match s with
  | EmptyString => EmptyString
  | String c s' => String (lower_char c) (lower s')
  end.

(** [k in s] for strings. *)
Fixpoint contains (k s : string) : bool :=
  String.prefix k s
  || match s with
     | EmptyString => false
     | String _ s' => contains k s'
     end.

(** [sep.join(l)] on a list of strings. *)
Definition join (sep : string) (l : list string) : string :=
  String.concat sep l.

Definition nonempty (s : string) : bool :=
  match s with EmptyString => false | _ => true end.

(** The characters of a string, as one-character strings (what iterating
    over a [str] yields). *)
Fixpoint chars (s : string) : list string :=
  match s with
  | EmptyString => []
  | String c s' => String c EmptyString :: chars s'
  end.

(** A single-line, white-space-normalised string: its only white space is
    the plain space, no two spaces are adjacent, and it neither starts
    nor ends with one.  [after_space] says that the character before [s]
    was a space (or that [s] is the start of the string). *)
Fixpoint tidy (after_space : bool) (s : string) : bool :=
  match s with
  | EmptyString => negb after_space
  | String c s' =>
      if is_space c
      then Ascii.eqb c " " && negb after_space && tidy true s'
      else tidy false s'
  end.

Definition normalized (s : string) : bool :=
  match s with
  | EmptyString => true
  | _ => tidy true s
  end.

(** The interior condition of [tidy]: white space is the plain space and
    never doubled; nothing is said about the end of the string. *)
Fixpoint spaced (after_space : bool) (s : string) : bool :=
  match s with
  | EmptyString => true
  | String c s' =>
      if is_space c
      then Ascii.eqb c " " && negb after_space && spaced true s'
      else spaced false s'
  end.

Definition starts_ok (s : string) : bool :=
  match s with
  | EmptyString => true
  | String c _ => negb (is_space c)
  end.

Fixpoint ends_ok (s : string) : bool :=
  match s with
  | EmptyString => true
  | String c EmptyString => negb (is_space c)
  | String _ s' => ends_ok s'
  end.

(** A string without white space at either end. *)
Definition trimmed (s : string) : bool := starts_ok s && ends_ok s.

End Str.

(** ** Python values *)

(** The values [json] decoding produces.  [bool] is kept apart from
    [int]; nothing below does arithmetic on either. *)
Inductive value : Type :=
  | VNone
  | VBool (b : bool)
  | VInt (z : Z)
  | VFloat (f : float)
  | VStr (s : string)
  | VList (l : list value)
  | VDict (d : list (string * value)).

Abbreviation dict := (list (string * value)).

(** [bool(v)]: [None], [False], zero, and the empty string, list and
    dictionary are falsy ([-0.0] compares equal to [0.0], a NaN does
    not). *)
Definition truthy (v : value) : bool :=
  match v with
  | VNone => false
  | VBool b => b
  | VInt z => negb (z =? 0)%Z
  | VFloat f => negb (PrimFloat.eqb f PrimFloat.zero)
  | VStr s => Str.nonempty s
  | VList l => match l with [] => false | _ => true end
  | VDict d => match d with [] => false | _ => true end
  end.

(** [a or b], both operands already evaluated (the right operand of
    every [or] modelled with it is a literal or cannot raise). *)
Definition py_or (a b : value) : value := if truthy a then a else b.

Fixpoint dict_lookup (key : string) (d : dict) : option value :=
  match d with
  | [] => None
  | (k, v) :: d' => if String.eqb k key then Some v else dict_lookup key d'
  end.

(** [d.get(key, dflt)] on a dictionary. *)
Definition dict_get (d : dict) (key : string) (dflt : value) : value :=
  default dflt (dict_lookup key d).

(** ** Exceptions *)

Inductive exn : Type :=
  | AttributeError   (* a method looked up on a value that lacks it *)
  | TypeError        (* iterating a non-iterable, joining a non-string *)
  | ClientError.     (* any failure of the client other than HTTPError *)

Inductive result (A : Type) : Type :=
  | Ok (a : A)
  | Raise (e : exn).
Arguments Ok {A} a.
Arguments Raise {A} e.

#[global] Instance result_ret : MRet result := @Ok.
#[global] Instance result_bind : MBind result := λ A B f m,
  match m with Ok a => f a | Raise e => Raise e end.

Definition returns {A} (m : result A) : Prop := ∃ a, m = Ok a.

(** [o.get(key, dflt)]: only dictionaries have the method. *)
Definition get (o : value) (key : string) (dflt : value) : result value :=
  match o with
  | VDict d => Ok (dict_get d key dflt)
  | _ => Raise AttributeError
  end.

(** [o.strip()]: only strings have the method. *)
Definition strip (o : value) : result string :=
  match o with
  | VStr s => Ok (Str.strip s)
  | _ => Raise AttributeError
  end.

(** [for x in o]: the elements of a list, the characters of a string,
    the keys of a dictionary; nothing else is iterable. *)
Definition iter (o : value) : result (list value) :=
  match o with
  | VList l => Ok l
  | VStr s => Ok (VStr <$> Str.chars s)
  | VDict d => Ok ((λ kv, VStr kv.1) <$> d)
  | _ => Raise TypeError
  end.

(** The argument of [sep.join]: every element has to be a string. *)
Fixpoint strings (l : list value) : result (list string) :=
  match l with
  | [] => Ok []
  | VStr s :: l' => ss ← strings l'; Ok (s :: ss)
  | _ :: _ => Raise TypeError
  end.

(** [sep.join(l)] *)
Definition join (sep : string) (l : list value) : result string :=
  ss ← strings l; Ok (Str.join sep ss).

(** ** Effects *)

Definition SLEEP_BETWEEN_CALLS : float := 0.25%float.

(** What [fetch_rows] does besides building rows: the line printed before
    the loop, the pause before each item, the detail request, and the
    progress line. *)
Inductive event : Type :=
  | Banner (username : string) (total : Z)
  | Sleep (seconds : float)
  | Request (rel_id : value)
  | Progress (i : nat) (total : Z).

(** A computation that logs events and returns or raises; the events
    logged before an exception stay in the log. *)
Record traced (A : Type) : Type := Traced {
  log : list event;
  outcome : result A
}.
Arguments Traced {A} log outcome.
Arguments log {A} t.
Arguments outcome {A} t.

#[global] Instance traced_ret : MRet traced := λ A a, Traced [] (Ok a).
#[global] Instance traced_bind : MBind traced := λ A B f m,
  match outcome m with
  | Ok a => Traced (log m ++ log (f a)) (outcome (f a))
  | Raise e => Traced (log m) (Raise e)
  end.

Definition tell (e : event) : traced unit := Traced [e] (Ok tt).

Definition lift {A} (r : result A) : traced A := Traced [] r.

(** ** [repr] and [str] *)

Definition hex_digit (n : N) : ascii :=
  if (n <? 10)%N then ascii_of_N (48 + n) else ascii_of_N (87 + n).

Definition backslash : ascii := "092"%char.
Definition apostrophe : ascii := "039"%char.
Definition quote : ascii := "034"%char.

(** One character inside the [repr] of a string delimited by [q]. *)
Definition repr_char (q c : ascii) : string :=
  let n := N_of_ascii c in
  if Ascii.eqb c q || Ascii.eqb c backslash then String backslash (String c "")
  else if (n =? 9)%N then String backslash "t"
  else if (n =? 10)%N then String backslash "n"
  else if (n =? 13)%N then String backslash "r"
  else if ((n <? 32) || (n =? 127) || (128 <=? n) && (n <=? 160) || (n =? 173))%N
  then String backslash (String "x"
         (String (hex_digit (n / 16)) (String (hex_digit (n mod 16)) "")))
  else String c "".

Fixpoint repr_chars (q : ascii) (s : string) : string :=
  match s with
  | EmptyString => EmptyString
  | String c s' => repr_char q c +:+ repr_chars q s'
  end.

Fixpoint has_char (c : ascii) (s : string) : bool :=
  match s with
  | EmptyString => false
  | String c' s' => Ascii.eqb c' c || has_char c s'
  end.

(** [repr(s)] for a string: single quotes, unless the string has a single
    quote and no double quote. *)
Definition repr_str (s : string) : string :=
  let q := if has_char apostrophe s && negb (has_char quote s)
           then quote else apostrophe in
  String q (repr_chars q s +:+ String q "").

Section Program.

(** [repr] of a float (the shortest decimal string that reads back as the
    same float); the development does not depend on what it prints. *)
Variable float_str : float → string.

Fixpoint repr (v : value) : string :=
  match v with
  | VNone => "None"
  | VBool b => if b then "True" else "False"
  | VInt z => pretty z
  | VFloat f => float_str f
  | VStr s => repr_str s
  | VList l => "[" +:+ Str.join ", " (repr <$> l) +:+ "]"
  | VDict d =>
      "{" +:+ Str.join ", "
                ((λ kv, match kv with
                        | (k, v) => repr_str k +:+ ": " +:+ repr v
                        end) <$> d) +:+ "}"
  end.

(** [str(v)] *)
Definition str (v : value) : string :=
  match v with
  | VStr s => s
  | _ => repr v
  end.

(** ** The program *)

Definition INCLUDE_FULL_RELEASE : bool := true.

Definition clean_text (s : value) : string :=
  match s with
  | VNone => ""
  | _ =>
      let s := Str.replace "009" " "
                 (Str.replace "010" " " (Str.replace "013" " " (str s))) in
      Str.strip (Str.sub_ws false s)
  end.

(** [[o.get(key, "") for o in objs if isinstance(o, dict) and o.get(key)]] *)
Fixpoint select (key : string) (objs : list value) : list value :=
  match objs with
  | [] => []
  | VDict o :: objs' =>
      if truthy (dict_get o key VNone)
      then dict_get o key (VStr "") :: select key objs'
      else select key objs'
  | _ :: objs' => select key objs'
  end.

Definition join_names (objs : value) : result string :=
  match objs with
  | VList l => join "|" (select "name" l)
  | _ => Ok ""
  end.

Definition KEYWORDS : list string :=
  ["colored"; "red"; "blue"; "green"; "marbled"; "splatter"; "limited";
   "reissue"; "remastered"; "club"].

(** [d and any(k in d.lower() for k in KEYWORDS)] *)
Definition sniff (d : string) : bool :=
  Str.nonempty d && existsb (λ k, Str.contains k (Str.lower d)) KEYWORDS.

(** The inner loop of [summarize_formats] over the descriptions of one
    entry: [d = (d or "").strip()], then the keyword test. *)
Fixpoint scan_descs (descs : list value) (variant_bits : list string)
  : result (list string) :=
  match descs with
  | [] => Ok variant_bits
  | d :: descs' =>
      d ← strip (py_or d (VStr ""));
      scan_descs descs' (if sniff d then variant_bits ++ [d] else variant_bits)
  end.

(** Lines 60 to 64: the summary piece of one entry, from its trimmed
    [name], [text] and [qty] and the string [" ".join(...)] built from the
    name and the truthy descriptions. *)
Definition build_piece (joined text qty : string) : string :=
  let piece := Str.strip joined in
  let piece := if Str.nonempty text
               then Str.strip (piece +:+ " (" +:+ text +:+ ")") else piece in
  let piece := if Str.nonempty qty
               then Str.strip (piece +:+ " x" +:+ qty) else piece in
  piece.

(** The body of the loop of [summarize_formats] for an entry that is a
    dictionary; the state is [(parts, variant_bits)]. *)
Definition format_entry (fmt : dict) (st : list string * list string)
  : result (list string * list string) :=
  let '(parts, variant_bits) := st in
  name ← strip (py_or (dict_get fmt "name" VNone) (VStr ""));
  qty ← strip (py_or (dict_get fmt "qty" VNone) (VStr ""));
  text ← strip (py_or (dict_get fmt "text" VNone) (VStr ""));
  let descs := py_or (dict_get fmt "descriptions" (VList [])) (VList []) in
  let variant_bits :=
    if Str.nonempty text then variant_bits ++ [text] else variant_bits in
  ds ← iter descs;
  variant_bits ← scan_descs ds variant_bits;
  ds ← iter descs;
  joined ← join " " (VStr name :: filter (λ d, truthy d = true) ds);
  let piece := build_piece joined text qty in
  Ok (if Str.nonempty piece then parts ++ [piece] else parts, variant_bits).

Fixpoint formats_loop (fmt_list : list value) (st : list string * list string)
  : result (list string * list string) :=
  match fmt_list with
  | [] => Ok st
  | VDict fmt :: rest => st' ← format_entry fmt st; formats_loop rest st'
  | _ :: rest => formats_loop rest st
  end.

(** [[b for b in variant_bits if not (b in seen or seen.add(b))]] *)
Fixpoint unique_bits (seen : gset string) (variant_bits : list string)
  : list string :=
  match variant_bits with
  | [] => []
  | b :: rest =>
      if decide (b ∈ seen) then unique_bits seen rest
      else b :: unique_bits ({[b]} ∪ seen) rest
  end.

Definition summarize_formats (fmt_list : value) : result (string * string) :=
  match fmt_list with
  | VList l =>
      '(parts, variant_bits) ← formats_loop l ([], []);
      let variant := Str.join "|" (unique_bits ∅ variant_bits) in
      let variant := if Str.nonempty variant then variant else "" in
      Ok (Str.join "|" parts, clean_text (VStr variant))
  | _ => Ok ("", "")
  end.

Definition pick (key : string) (full basic dflt : value) : result value :=
  a ← get (py_or full (VDict [])) key VNone;
  if truthy a then Ok a else get (py_or basic (VDict [])) key dflt.

(** *** Rows *)

(** The dictionary built for one collection item, one field per key. *)
Record row : Type := Row {
  release_id : value;
  master_id : value;
  artist : value;
  title : value;
  date_added : value;
  variant : value;
  format : value;
  release_date : value;
  country : value;
  label : value;
  catno : value;
  genres : value;
  styles : value
}.

(** Lines 118 to 143 of [fetch_rows]: the fields of the row, evaluated in
    the order of the source. *)
Definition assemble_row (rel_id ci basic full : value) : result row :=
  artists ← pick "artists" full basic (VList []);
  labels ← pick "labels" full basic (VList []);
  formats ← pick "formats" full basic (VList []);
  genres ← pick "genres" full basic (VList []);
  styles ← pick "styles" full basic (VList []);
  identifiers ← get (py_or full (VDict [])) "identifiers" (VList []);
  '(fmt_summary, variant) ← summarize_formats formats;
  master_id ← pick "master_id" full basic VNone;
  artist ← join_names artists;
  title ← pick "title" full basic (VStr "");
  date_added ← get ci "date_added" VNone;
  released_formatted ← get basic "released_formatted" VNone;
  dflt ← (if truthy released_formatted then Ok released_formatted
          else get basic "year" VNone);
  released ← pick "released" full basic dflt;
  country ← pick "country" full basic (VStr "");
  label ← join_names labels;
  ls ← iter (py_or labels (VList []));
  catno ← join "|" (select "catno" ls);
  gs ← iter (py_or genres (VList []));
  genres ← join "|" gs;
  ss ← iter (py_or styles (VList []));
  styles ← join "|" ss;
  Ok {| release_id := rel_id;
        master_id := master_id;
        artist := VStr (clean_text (VStr artist));
        title := VStr (clean_text title);
        date_added := VStr (clean_text date_added);
        variant := VStr variant;
        format := VStr fmt_summary;
        release_date := VStr (clean_text released);
        country := VStr (clean_text country);
        label := VStr (clean_text (VStr label));
        catno := VStr catno;
        genres := VStr genres;
        styles := VStr styles |}.

(** *** The collection and the client *)

(** One element of [folder.releases]: its [data] attribute and the [id]
    attribute of its [release], each possibly missing. *)
Record item : Type := Item {
  item_data : option value;
  item_release_id : option value
}.

(** What [d.release(rel_id).data] does: it yields the data of the release,
    raises [HTTPError] with a message, or fails otherwise. *)
Inductive reply : Type :=
  | Data (data : value)
  | HTTPError (msg : string)
  | Failure.

(** Lines 102 and 103: [ci] and [basic]. *)
Definition item_ci (it : item) : value :=
  py_or (default (VDict []) (item_data it)) (VDict []).

Definition item_basic (it : item) : result value :=
  basic ← get (item_ci it) "basic_information" (VDict []);
  Ok (py_or basic (VDict [])).

(** Line 105: [getattr(item.release, "id", None) or basic.get("id")]. *)
Definition item_rel_id (it : item) : result value :=
  basic ← item_basic it;
  let own := default VNone (item_release_id it) in
  if truthy own then Ok own else get basic "id" VNone.

(** Lines 109 to 115. *)
Definition fetch_full (include_full_release : bool) (client : value → reply)
    (rel_id : value) : result value :=
  if include_full_release then
    match client rel_id with
    | Data data => Ok (py_or data (VDict []))
    | HTTPError msg => Ok (VDict [("_fetch_error", VStr msg)])
    | Failure => Raise ClientError
    end
  else Ok (VDict []).

(** The body of the loop of [fetch_rows] for one item: [None] when the
    item is skipped by [continue].  The pause before each item and the
    progress lines are left out. *)
Definition fetch_row (include_full_release : bool) (client : value → reply)
    (it : item) : result (option row) :=
  basic ← item_basic it;
  rel_id ← item_rel_id it;
  if negb (truthy rel_id) then Ok None
  else
    full ← fetch_full include_full_release client rel_id;
    r ← assemble_row rel_id (item_ci it) basic full;
    Ok (Some r).

Fixpoint fetch_loop (include_full_release : bool) (client : value → reply)
    (releases : list item) (rows : list row) : result (list row) :=
  match releases with
  | [] => Ok rows
  | it :: rest =>
      r ← fetch_row include_full_release client it;
      fetch_loop include_full_release client rest
        (match r with Some r => rows ++ [r] | None => rows end)
  end.

Definition fetch_rows_with (include_full_release : bool)
    (client : value → reply) (releases : list item) : result (list row) :=
  fetch_loop include_full_release client releases [].

Definition fetch_rows : (value → reply) → list item → result (list row) :=
  fetch_rows_with INCLUDE_FULL_RELEASE.

(** *** [first_barcode] *)

(** [o.lower()]: only strings have the method. *)
Definition lower (o : value) : result string :=
  match o with
  | VStr s => Ok (Str.lower s)
  | _ => Raise AttributeError
  end.

(** The loop of [first_barcode]: the first dictionary whose "type",
    lower-cased, is [barcode] ends the search. *)
Fixpoint first_barcode_loop (identifiers : list value) : result string :=
  match identifiers with
  | [] => Ok ""
  | VDict obj :: rest =>
      t ← lower (dict_get obj "type" (VStr ""));
      if String.eqb t "barcode"
      then Ok (clean_text (dict_get obj "value" (VStr "")))
      else first_barcode_loop rest
  | _ :: rest => first_barcode_loop rest
  end.

Definition first_barcode (identifiers : value) : result string :=
  match identifiers with
  | VList l => first_barcode_loop l
  | _ => Ok ""
  end.

(** *** [fetch_rows] with its effects *)

(** Lines 99 to 145: one round of the loop, up to the row. *)
Definition fetch_item (include_full_release : bool) (client : value → reply)
    (it : item) : traced (option row) :=
  _ ← tell (Sleep SLEEP_BETWEEN_CALLS);
  basic ← lift (item_basic it);
  rel_id ← lift (item_rel_id it);
  if negb (truthy rel_id) then mret None
  else
    _ ← (if include_full_release then tell (Request rel_id) else mret tt);
    full ← lift (fetch_full include_full_release client rel_id);
    r ← lift (assemble_row rel_id (item_ci it) basic full);
    mret (Some r).

(** The loop, with its counter [i]; the progress line is at the end of
    the body, which [continue] does not reach. *)
Fixpoint fetch_steps (include_full_release : bool) (client : value → reply)
    (total : Z) (releases : list item) (i : nat) (rows : list row)
  : traced (list row) :=
  match releases with
  | [] => mret rows
  | it :: rest =>
      let i := S i in
      o ← fetch_item include_full_release client it;
      match o with
      | None => fetch_steps include_full_release client total rest i rows
      | Some r =>
          _ ← (if (i mod 25 =? 0)%nat then tell (Progress i total)
               else mret tt);
          fetch_steps include_full_release client total rest i (rows ++ [r])
      end
  end.

Definition fetch_rows_traced (include_full_release : bool)
    (client : value → reply) (username : string) (total : Z)
    (releases : list item) : traced (list row) :=
  _ ← tell (Banner username total);
  fetch_steps include_full_release client total releases 0 [].

End Program.

(** ** Specification-side definitions

    The notions the properties are stated with.  Where a sentence of the
    specification does not hold of the program, the sentence as worded is
    a proposition of its own ([release_date_claim], [text_fields_claim],
    [summary_piece_claim], [formats_total_claim]). *)

(** *** Field resolution *)

(** The contract of the field resolver in the words of the specification:
    the enriched value if it is truthy, otherwise the value of the basic
    record if the key is present there, otherwise the default. *)
Definition resolve (key : string) (enriched basic : dict) (dflt : value)
  : value :=
  match dict_lookup key enriched with
  | Some v =>
      if truthy v then v
      else match dict_lookup key basic with Some w => w | None => dflt end
  | None => match dict_lookup key basic with Some w => w | None => dflt end
  end.

(** A record that is there ([is_record]) or not ([is_missing]). *)
Definition is_record (r : value) : bool :=
  match r with VNone | VDict _ => true | _ => false end.

Definition is_missing (r : value) : bool :=
  match r with VNone | VDict [] => true | _ => false end.

(** What the failed detail request leaves in [full]. *)
Definition sentinel (msg : string) : value :=
  VDict [("_fetch_error", VStr msg)].

(** *** Release date *)

(** The release-date chain as the specification words it: the primary
    "released" value (full, else basic), and whenever that is falsy the
    pre-formatted date of the basic record, then its year. *)
Definition released_chain (full basic : dict) : value :=
  let primary :=
    py_or (dict_get full "released" VNone) (dict_get basic "released" VNone) in
  if truthy primary then primary
  else py_or (dict_get basic "released_formatted" VNone)
             (dict_get basic "year" VNone).

(** The value [fetch_rows] hands to [clean_text]: the secondary chain is
    the default of [pick], used only when the basic record has no
    "released" key. *)
Definition released_value (full basic : dict) : value :=
  if truthy (dict_get full "released" VNone) then dict_get full "released" VNone
  else match dict_lookup "released" basic with
       | Some v => v
       | None => py_or (dict_get basic "released_formatted" VNone)
                       (dict_get basic "year" VNone)
       end.

(** The claim of the specification on [release_date], as it is worded. *)
Definition release_date_claim : Prop :=
  ∀ (float_str : float → string) (rel_id ci : value) (full basic : dict)
    (r : row),
    assemble_row float_str rel_id ci (VDict basic) (VDict full) = Ok r →
    release_date r = VStr (clean_text float_str (released_chain full basic)).

(** *** Text fields *)

Definition is_text (v : value) : bool :=
  match v with VStr _ => true | _ => false end.

Definition is_clean (v : value) : bool :=
  match v with VStr s => Str.normalized s | _ => false end.

(** The fields passed through [clean_text] and the ones left as joined. *)
Definition cleaned_fields (r : row) : list value :=
  [artist r; title r; date_added r; variant r; release_date r; country r;
   label r].

Definition joined_fields (r : row) : list value :=
  [format r; catno r; genres r; styles r].

Definition text_fields (r : row) : list value :=
  cleaned_fields r ++ joined_fields r.

(** The claim of the specification on the text fields, as it is worded:
    all eleven are normalised. *)
Definition text_fields_claim : Prop :=
  ∀ (float_str : float → string) (client : value → reply)
    (releases : list item) (rows : list row) (r : row),
    fetch_rows float_str client releases = Ok rows →
    r ∈ rows →
    forallb is_clean (text_fields r) = true.

(** *** Release identity *)

(** The basic record of an item, read off its data: the dictionary under
    "basic_information", empty when there is none. *)
Definition basic_record (it : item) : dict :=
  match item_data it with
  | Some (VDict ci) =>
      match dict_lookup "basic_information" ci with
      | Some (VDict basic) => basic
      | _ => []
      end
  | _ => []
  end.

(** A truthy release identity can be resolved from the item's own release
    or from the "id" of its basic record. *)
Definition has_identity (it : item) : bool :=
  truthy (default VNone (item_release_id it))
  || truthy (dict_get (basic_record it) "id" VNone).

Definition skipped (releases : list item) : nat :=
  length (filter (λ it, has_identity it = false) releases).

(** *** Variant bits *)

(** Deduplication that keeps the first occurrence of every string and the
    order of the rest: the head stays, and is removed from what follows. *)
Fixpoint first_occurrences (bits : list string) : list string :=
  match bits with
  | [] => []
  | b :: rest => b :: filter (λ x, x ≠ b) (first_occurrences rest)
  end.

Definition is_list (v : value) : bool :=
  match v with VList _ => true | _ => false end.

(** *** Format entries *)

(** A value that [(v or "").strip()] accepts: a string, or anything
    falsy. *)
Definition text_like (v : value) : bool :=
  match v with VStr _ => true | _ => negb (truthy v) end.

(** The string [v or ""] of such a value. *)
Definition text_of (v : value) : string :=
  match v with VStr s => s | _ => "" end.

(** A "descriptions" value the loop can walk: a list of strings and falsy
    values, a string, a dictionary, or anything falsy. *)
Definition descs_ok (v : value) : bool :=
  match v with
  | VList l => forallb text_like l
  | VStr _ | VDict _ => true
  | _ => negb (truthy v)
  end.

(** The descriptions the loop walks, as strings. *)
Definition descriptions_of (v : value) : list string :=
  match v with
  | VList l => text_of <$> l
  | VStr s => Str.chars s
  | VDict d => fst <$> d
  | _ => []
  end.

Definition entry_ok (fmt : dict) : bool :=
  text_like (dict_get fmt "name" VNone)
  && text_like (dict_get fmt "qty" VNone)
  && text_like (dict_get fmt "text" VNone)
  && descs_ok (dict_get fmt "descriptions" (VList [])).

Definition is_dict (v : value) : bool :=
  match v with VDict _ => true | _ => false end.

Definition formats_ok (fmt_list : list value) : bool :=
  forallb (λ e, match e with VDict fmt => entry_ok fmt | _ => true end)
    fmt_list.

(** The trimmed [name], [qty] or [text] of an entry. *)
Definition field (fmt : dict) (key : string) : string :=
  Str.strip (text_of (dict_get fmt key VNone)).

Definition descriptions (fmt : dict) : list string :=
  descriptions_of (dict_get fmt "descriptions" (VList [])).

(** The summary piece of an entry: every stage is trimmed. *)
Definition summary_piece (name text qty : string) (descs : list string)
  : string :=
  let piece :=
    Str.strip (Str.join " " (name :: filter (λ d, Str.nonempty d = true) descs)) in
  let piece :=
    if Str.nonempty text then Str.strip (piece +:+ " (" +:+ text +:+ ")")
    else piece in
  if Str.nonempty qty then Str.strip (piece +:+ " x" +:+ qty) else piece.

(** The summary piece as the specification words it: no trimming. *)
Definition claimed_piece (name text qty : string) (descs : list string)
  : string :=
  let piece := Str.join " " (name :: filter (λ d, Str.nonempty d = true) descs) in
  let piece :=
    if Str.nonempty text then piece +:+ " (" +:+ text +:+ ")" else piece in
  if Str.nonempty qty then piece +:+ " x" +:+ qty else piece.

(** The variant bits of one entry: its text and the descriptions, trimmed,
    that carry a keyword. *)
Definition entry_bits (text : string) (descs : list string) : list string :=
  (if Str.nonempty text then [text] else [])
  ++ filter (λ d, sniff d = true) (Str.strip <$> descs).

Definition pieces (piece : string) : list string :=
  if Str.nonempty piece then [piece] else [].

(** The claim of the specification on the summary piece, as it is worded:
    the stages are not trimmed. *)
Definition summary_piece_claim : Prop :=
  ∀ (fmt : dict) (parts bits parts' bits' : list string),
    format_entry fmt (parts, bits) = Ok (parts', bits') →
    parts' = parts ++ pieces (claimed_piece (field fmt "name")
                                (field fmt "text") (field fmt "qty")
                                (descriptions fmt)).

(** The claim of the specification on malformed entries, as it is worded:
    no list makes [summarize_formats] raise. *)
Definition formats_total_claim : Prop :=
  ∀ (float_str : float → string) (fmt_list : list value),
    returns (summarize_formats float_str (VList fmt_list)).

(** *** Well-typed records *)

(** The dictionaries of a list give [join] only strings under [key]. *)
Definition named_ok (key : string) (objs : list value) : bool :=
  forallb (λ o, match o with
                | VDict d => text_like (dict_get d key VNone)
                | _ => true
                end) objs.

(** An "artists" value [join_names] accepts. *)
Definition names_ok (v : value) : bool :=
  match v with VList l => named_ok "name" l | _ => true end.

(** A "labels" value: also walked for the catalogue numbers. *)
Definition labels_ok (v : value) : bool :=
  match v with
  | VList l => named_ok "name" l && named_ok "catno" l
  | VStr _ | VDict _ => true
  | _ => negb (truthy v)
  end.

(** A "genres" or "styles" value [join] accepts. *)
Definition strs_ok (v : value) : bool :=
  match v with
  | VList l => forallb is_text l
  | VStr _ | VDict _ => true
  | _ => negb (truthy v)
  end.

Definition formats_value_ok (v : value) : bool :=
  match v with VList l => formats_ok l | _ => true end.

(** The two records of an item give every list-valued field, as [pick]
    resolves it, a shape the row assembly accepts. *)
Definition records_ok (full basic : dict) : bool :=
  names_ok (resolve "artists" full basic (VList []))
  && labels_ok (resolve "labels" full basic (VList []))
  && formats_value_ok (resolve "formats" full basic (VList []))
  && strs_ok (resolve "genres" full basic (VList []))
  && strs_ok (resolve "styles" full basic (VList [])).

(** The data of an item is missing, falsy, or a dictionary whose
    "basic_information" is missing, falsy, or a dictionary. *)
Definition data_ok (it : item) : bool :=
  match item_data it with
  | None => true
  | Some (VDict ci) =>
      match dict_lookup "basic_information" ci with
      | None => true
      | Some basic => negb (truthy basic) || is_dict basic
      end
  | Some v => negb (truthy v)
  end.

(** The release identity of an item. *)
Definition identity (it : item) : value :=
  py_or (default VNone (item_release_id it))
        (dict_get (basic_record it) "id" VNone).

(** The full record of a release when the detail request is answered
    with a record or with [HTTPError]. *)
Definition full_record (include_full_release : bool) (client : value → reply)
    (rel_id : value) : option dict :=
  if include_full_release then
    match client rel_id with
    | Data (VDict d) => Some d
    | Data v => if truthy v then None else Some []
    | HTTPError msg => Some [("_fetch_error", VStr msg)]
    | Failure => None
    end
  else Some [].

Definition item_ok (include_full_release : bool) (client : value → reply)
    (it : item) : bool :=
  data_ok it
  && (negb (has_identity it)
      || match full_record include_full_release client (identity it) with
         | Some full => records_ok full (basic_record it)
         | None => false
         end).

(** *** Characters kept by [clean_text] *)

(** The characters of a string that are not white space, in order. *)
Fixpoint solid (s : string) : string :=
  match s with
  | EmptyString => EmptyString
  | String c s' => if Str.is_space c then solid s' else String c (solid s')
  end.

(** A string without any white space. *)
Fixpoint dense (s : string) : bool :=
  match s with
  | EmptyString => true
  | String c s' => negb (Str.is_space c) && dense s'
  end.

(** *** Errors of [pick] *)

(** The value a record has under a key, [None] when it has none or is not
    a dictionary. *)
Definition value_at (o : value) (key : string) : value :=
  match o with VDict d => dict_get d key VNone | _ => VNone end.

(** A truthy value that is not a dictionary: [.get] fails on it. *)
Definition not_record (o : value) : bool := truthy o && negb (is_dict o).

(** *** Names of a list *)

(** The non-empty strings the dictionaries of a list have under [key],
    in order. *)
Fixpoint names_of (key : string) (objs : list value) : list string :=
  match objs with
  | [] => []
  | VDict d :: rest =>
      match dict_get d key VNone with
      | VStr s => if Str.nonempty s then s :: names_of key rest
                  else names_of key rest
      | _ => names_of key rest
      end
  | _ :: rest => names_of key rest
  end.

(** *** Identifiers *)

(** An identifier of type barcode, in any letter case. *)
Definition is_barcode (o : value) : bool :=
  match o with
  | VDict d =>
      match dict_get d "type" (VStr "") with
      | VStr t => String.eqb (Str.lower t) "barcode"
      | _ => false
      end
  | _ => false
  end.

(** An identifier the search steps over: not a dictionary, or one whose
    "type" is a string other than barcode (or missing). *)
Definition stepped_over (o : value) : bool :=
  match o with
  | VDict d =>
      match dict_get d "type" (VStr "") with
      | VStr t => negb (String.eqb (Str.lower t) "barcode")
      | _ => false
      end
  | _ => true
  end.

(** A dictionary whose "type" is present and not a string. *)
Definition bad_type (o : value) : bool :=
  match o with
  | VDict d =>
      match dict_get d "type" (VStr "") with
      | VStr _ => false
      | _ => true
      end
  | _ => false
  end.

(** *** Pieces and bits of a list of formats *)

(** A string that is not empty and has no white space at either end. *)
Definition good (s : string) : bool := Str.nonempty s && Str.trimmed s.

(** The summary piece an entry contributes, if any. *)
Definition entry_piece (e : value) : list string :=
  match e with
  | VDict fmt =>
      pieces (summary_piece (field fmt "name") (field fmt "text")
                (field fmt "qty") (descriptions fmt))
  | _ => []
  end.

(** The variant bits an entry contributes. *)
Definition entry_variant_bits (e : value) : list string :=
  match e with
  | VDict fmt => entry_bits (field fmt "text") (descriptions fmt)
  | _ => []
  end.

(** The keywords without the two that contain [red]. *)
Definition SHORT_KEYWORDS : list string :=
  ["red"; "blue"; "green"; "marbled"; "splatter"; "limited"; "reissue";
   "club"].

(** *** What a row is built from *)


(** The keys of the full record a row depends on, and those of the basic
    record. *)
Definition FULL_KEYS : list string :=
  ["artists"; "labels"; "formats"; "genres"; "styles"; "master_id"; "title";
   "released"; "country"].



(** *** The text fields of a row *)

(** The entries of a list; any other value has none. *)
Definition entries (v : value) : list value :=
  match v with VList l => l | _ => [] end.

(** The elements a [|]-join walks in [v or []]: the strings of a list, the
    characters of a string, the keys of a dictionary. *)
Definition elements (v : value) : list string := descriptions_of v.

(** The [|]-join of the non-empty strings the dictionaries of a list have
    under [key]. *)
Definition joined_names (key : string) (v : value) : string :=
  Str.join "|" (names_of key (entries v)).

(** The [|]-join of the elements of a value. *)
Definition joined_elements (v : value) : string :=
  Str.join "|" (elements v).

(** The [|]-join of the summary pieces of a list of formats, and of its
    variant bits without repeats. *)
Definition joined_pieces (v : value) : string :=
  Str.join "|" (concat (entry_piece <$> entries v)).

Definition joined_bits (v : value) : string :=
  Str.join "|" (first_occurrences (concat (entry_variant_bits <$> entries v))).

(** A record has nothing under a key: the key is absent or holds [None]. *)
Definition lacks (d : dict) (key : string) : bool :=
  match dict_get d key VNone with VNone => true | _ => false end.

(** Neither record has anything under a key. *)
Definition absent (key : string) (full basic : dict) : bool :=
  lacks full key && lacks basic key.

(** *** The events of a run *)

(** The number of pauses in a log, and the release ids requested. *)
Definition is_sleep (e : event) : bool :=
  match e with Sleep _ => true | _ => false end.

Definition sleeps (events : list event) : nat :=
  length (filter (λ e, is_sleep e = true) events).

Definition requests (events : list event) : list value :=
  omap (λ e, match e with Request rel_id => Some rel_id | _ => None end)
    events.

(** The lengths of the pauses of a log, in seconds and in order. *)
Definition pauses (events : list event) : list float :=
  omap (λ e, match e with Sleep seconds => Some seconds | _ => None end)
    events.

Definition is_progress (e : event) : bool :=
  match e with Progress _ _ => true | _ => false end.

(** What the round of an item does besides printing: the pause, then the
    detail request if the item has an identity and the enrichment is on. *)
Definition round_events (include_full_release : bool) (it : item)
  : list event :=
  Sleep SLEEP_BETWEEN_CALLS
  :: (if include_full_release && has_identity it
      then [Request (identity it)] else []).

(** The events of the rounds of a run that returns, the counter standing
    at [i] before the first of them. *)
Fixpoint rounds (include_full_release : bool) (total : Z)
    (releases : list item) (i : nat) : list event :=
  match releases with
  | [] => []
  | it :: rest =>
      Sleep SLEEP_BETWEEN_CALLS
      :: (if include_full_release && has_identity it
          then [Request (identity it)] else [])
      ++ (if has_identity it && (S i mod 25 =? 0)%nat
          then [Progress (S i) total] else [])
      ++ rounds include_full_release total rest (S i)
  end.

(** ** Sample runs *)

Module Samples.

(** Any printer of floats will do where no float occurs. *)
Definition float_str (f : float) : string := "0.0".

Definition entry : value :=
  VDict [("name", VStr "Vinyl"); ("qty", VStr "1"); ("text", VStr "Red");
         ("descriptions", VList [VStr "LP"; VStr "Album"])].

Definition item_A : item :=
  Item (Some (VDict [("date_added", VStr "2020-01-02T03:04:05-07:00");
                     ("basic_information", VDict [("id", VInt 1)])]))
       (Some (VInt 1)).

Definition item_B : item :=
  Item (Some (VDict [("basic_information",
                      VDict [("id", VInt 2); ("title", VStr "Album B");
                             ("formats", VList [VDict [("name", VStr "CD")]])])]))
       (Some (VInt 2)).

Definition client (rel_id : value) : reply :=
  match rel_id with
  | VInt 1 =>
      Data (VDict [("title", VStr "Album A");
                   ("formats",
                    VList [VDict [("name", VStr "Vinyl"); ("qty", VStr "1");
                                  ("descriptions", VList [VStr "LP"])]])])
  | _ => HTTPError "404: Release not found."
  end.

(** An item whose lists carry double spaces, a tab and a line break. *)
Definition item_C : item :=
  Item (Some (VDict [("basic_information",
     VDict [("id", VInt 3);
            ("labels",
             VList [VDict [("name", VStr "Blue Note");
                           ("catno", VStr ("BLP" +:+ String "009" "1577"))]]);
            ("formats",
             VList [VDict [("name", VStr "Vinyl");
                           ("descriptions", VList [VStr "LP  Mono"])]]);
            ("genres", VList [VStr "Folk,  World"]);
            ("styles", VList [VStr ("Hard" +:+ String "010" "Bop")])])]))
       None.

(** An item with no release identity of its own and no "id" in its basic
    record. *)
Definition item_D : item :=
  Item (Some (VDict [("basic_information", VDict [("title", VStr "Lost")])]))
       (Some VNone).

(** Two entries whose variant bits are Red, Limited, Red. *)
Definition red_limited_red : list value :=
  [VDict [("name", VStr "Vinyl"); ("text", VStr "Red");
          ("descriptions", VList [VStr "LP"; VStr "Limited"])];
   VDict [("name", VStr "Vinyl"); ("text", VStr " Red ")]].

(** The identifiers of a release: the barcode is the third one. *)
Definition identifiers : list value :=
  [VDict [("type", VStr "Matrix / Runout"); ("value", VStr "A1")];
   VStr "stray";
   VDict [("type", VStr "BARCODE"); ("value", VStr " 7 24384 ")];
   VDict [("type", VNone)]].

(** A basic record with two labels, one without a catalogue number, and
    its genres given as one string. *)
Definition basic_E : dict :=
  [("id", VInt 5);
   ("artists", VList [VDict [("name", VStr "Nina Simone")]]);
   ("labels", VList [VDict [("name", VStr "Philips")];
                     VDict [("name", VStr "Verve"); ("catno", VStr "V6-8")]]);
   ("genres", VStr "Jazz")].

(** A listing of fifty items: forty-nine copies of [item_B] and, in
    position 25, the item without an identity. *)
Definition fifty : list item :=
  replicate 24 item_B ++ item_D :: replicate 25 item_B.

End Samples.

(** ** White space *)

Module StrFacts.
Import Str.

Lemma spaced_sub_ws b s : spaced b (sub_ws b s) = true.
Proof.
  revert b. induction s as [|c s IH]; intros b; simpl; [done|].
  destruct (is_space c) eqn:Hc.
  - destruct b; simpl; [apply IH|]. by rewrite IH.
  - simpl. by rewrite Hc.
Qed.

Lemma spaced_lstrip b s : spaced b s = true → spaced true (lstrip s) = true.
Proof.
  revert b. induction s as [|c s IH]; intros b; simpl; [done|].
  destruct (is_space c) eqn:Hc.
  - rewrite !andb_true_iff. intros [_ Hs]. by apply (IH true).
  - simpl. by rewrite Hc.
Qed.

Lemma tidy_rstrip b s :
  spaced b s = true → rstrip s ≠ "" → tidy b (rstrip s) = true.
Proof.
  revert b. induction s as [|c s IH]; intros b; simpl; [done|].
  intros Hs Hne.
  destruct (decide (rstrip s = "")) as [He|Hn].
  - rewrite He in *. destruct (is_space c) eqn:Hc; [done|].
    simpl. by rewrite Hc.
  - assert (Ht : tidy b (String c (rstrip s)) = true).
    { simpl. destruct (is_space c).
      - apply andb_true_iff in Hs as [-> Hs]. by apply IH.
      - by apply IH. }
    by destruct (rstrip s).
Qed.

Lemma normalized_strip b s :
  spaced b s = true → normalized (strip s) = true.
Proof.
  intros Hs. apply spaced_lstrip in Hs. unfold strip.
  destruct (decide (rstrip (lstrip s) = "")) as [He|Hn]; [by rewrite He|].
  apply (tidy_rstrip true) in Hn; [|done].
  by destruct (rstrip (lstrip s)).
Qed.

Lemma tidy_weaken s : tidy true s = true → tidy false s = true.
Proof.
  destruct s as [|c s]; simpl; [done|].
  destruct (is_space c); [|done]. by rewrite andb_false_r.
Qed.

Lemma tidy_replace b old s :
  is_space old = true → old ≠ " "%char →
  tidy b s = true → replace old " " s = s.
Proof.
  intros Hold Hne. revert b.
  induction s as [|c s IH]; intros b; simpl; [done|].
  destruct (Ascii.eqb_spec c old) as [->|Hc].
  - rewrite Hold. destruct (Ascii.eqb_spec old " "); [done|].
    by rewrite andb_false_l.
  - destruct (is_space c).
    + rewrite !andb_true_iff. intros [_ Hs]. f_equal. by apply (IH true).
    + intros Hs. f_equal. by apply (IH false).
Qed.

Lemma tidy_sub_ws b s : tidy b s = true → sub_ws b s = s.
Proof.
  revert b. induction s as [|c s IH]; intros b; simpl; [done|].
  destruct (is_space c) eqn:Hc.
  - rewrite !andb_true_iff. intros [[Hsp Hb] Hs].
    destruct b; [done|]. apply Ascii.eqb_eq in Hsp as ->.
    f_equal. by apply IH.
  - intros Hs. f_equal. by apply IH.
Qed.

Lemma tidy_lstrip s : tidy true s = true → lstrip s = s.
Proof.
  destruct s as [|c s]; simpl; [done|].
  destruct (is_space c); [|done]. by rewrite andb_false_r.
Qed.

Lemma tidy_rstrip_id b s : tidy b s = true → rstrip s = s.
Proof.
  revert b. induction s as [|c s IH]; intros b; simpl; [done|].
  destruct (is_space c) eqn:Hc.
  - rewrite !andb_true_iff. intros [_ Hs]. rewrite (IH true Hs).
    by destruct s.
  - intros Hs. rewrite (IH false Hs). by destruct s.
Qed.

Lemma normalized_strip_id s : normalized s = true → strip s = s.
Proof.
  destruct s as [|c s]; [done|]. unfold normalized, strip. intros Hs.
  rewrite (tidy_lstrip _ Hs). by apply (tidy_rstrip_id true).
Qed.

End StrFacts.

(** ** Trimmed strings *)

Module Trim.
Import Str.

Lemma starts_ok_lstrip s : starts_ok (lstrip s) = true.
Proof.
  induction s as [|c s IH]; simpl; [done|].
  destruct (is_space c) eqn:Hc; [done|]. simpl. by rewrite Hc.
Qed.

Lemma ends_ok_rstrip s : ends_ok (rstrip s) = true.
Proof.
  induction s as [|c s IH]; simpl; [done|].
  destruct (rstrip s) as [|c' r] eqn:Hr.
  - destruct (is_space c) eqn:Hc; [done|]. simpl. by rewrite Hc.
  - done.
Qed.

Lemma starts_ok_rstrip s : starts_ok s = true → starts_ok (rstrip s) = true.
Proof.
  destruct s as [|c s]; simpl; [done|]. intros Hc.
  destruct (rstrip s); [|done].
  destruct (is_space c) eqn:Hsp; [done|]. simpl. by rewrite Hsp.
Qed.

Lemma trimmed_strip s : trimmed (strip s) = true.
Proof.
  unfold trimmed, strip.
  by rewrite starts_ok_rstrip, ends_ok_rstrip by apply starts_ok_lstrip.
Qed.

Lemma lstrip_starts_ok s : starts_ok s = true → lstrip s = s.
Proof.
  destruct s as [|c s]; simpl; [done|]. by intros ->%negb_true_iff.
Qed.

Lemma rstrip_ends_ok s : ends_ok s = true → rstrip s = s.
Proof.
  induction s as [|c s IH]; [done|]. destruct s as [|c' s].
  - simpl. by intros ->%negb_true_iff.
  - intros Hs. change (rstrip (String c (String c' s)))
      with (match rstrip (String c' s) with
            | EmptyString =>
                if is_space c then EmptyString else String c EmptyString
            | r => String c r
            end).
    by rewrite (IH Hs).
Qed.

Lemma strip_trimmed s : trimmed s = true → strip s = s.
Proof.
  intros [Hs He]%andb_true_iff. unfold strip.
  by rewrite (lstrip_starts_ok _ Hs), (rstrip_ends_ok _ He).
Qed.

Lemma ends_ok_app s t : t ≠ "" → ends_ok (s +:+ t) = ends_ok t.
Proof.
  intros Ht. induction s as [|c s IH]; [done|].
  simpl. destruct (s +:+ t) eqn:Hst; [|done].
  destruct s; [by destruct t|done].
Qed.

Lemma starts_ok_app s t : s ≠ "" → starts_ok (s +:+ t) = starts_ok s.
Proof. by destruct s. Qed.

Lemma app_nonempty s t : s ≠ "" → s +:+ t ≠ "".
Proof. by destruct s. Qed.

(** Gluing two non-empty trimmed strings, whatever comes between. *)
Lemma trimmed_app s m t :
  s ≠ "" → t ≠ "" → trimmed s = true → trimmed t = true →
  trimmed (s +:+ m +:+ t) = true.
Proof.
  intros Hs Ht [Hs1 _]%andb_true_iff [_ Ht2]%andb_true_iff. unfold trimmed.
  rewrite starts_ok_app, Hs1 by done. simpl.
  rewrite ends_ok_app; [|by destruct m]. by rewrite ends_ok_app.
Qed.

Lemma trimmed_join name (descs : list string) :
  name ≠ "" → trimmed name = true →
  Forall (λ d, d ≠ "" ∧ trimmed d = true) descs →
  join " " (name :: descs) ≠ "" ∧ trimmed (join " " (name :: descs)) = true.
Proof.
  intros Hn Ht Hds. revert name Hn Ht.
  induction Hds as [|d descs [Hd Hdt] _ IH]; intros name Hn Ht; [done|].
  destruct (IH d Hd Hdt) as [Hne Htr].
  change (join " " (name :: d :: descs))
    with (name +:+ " " +:+ join " " (d :: descs)).
  split; [by apply app_nonempty|by apply trimmed_app].
Qed.

End Trim.

(** ** [clean_text] *)

Section CleanText.
Variable float_str : float → string.
Import Str StrFacts.

Lemma clean_text_str s :
  clean_text float_str (VStr s)
  = strip (sub_ws false
      (replace "009" " " (replace "010" " " (replace "013" " " s)))).
Proof. done. Qed.

(** The result of [clean_text] is a single-line, normalised string. *)
Lemma clean_text_normalized v : normalized (clean_text float_str v) = true.
Proof.
  destruct v; try done; apply (normalized_strip false), spaced_sub_ws.
Qed.

(** [clean_text] leaves a normalised string as it is. *)
Lemma clean_text_fixed s :
  normalized s = true → clean_text float_str (VStr s) = s.
Proof.
  intros Hs. rewrite clean_text_str. destruct s as [|c s]; [done|].
  assert (Ht : tidy true (String c s) = true) by done.
  rewrite (tidy_replace true "013" (String c s)); [|done..].
  rewrite (tidy_replace true "010" (String c s)); [|done..].
  rewrite (tidy_replace true "009" (String c s)); [|done..].
  rewrite (tidy_sub_ws false) by by apply tidy_weaken.
  by apply normalized_strip_id.
Qed.

(** C9. [clean_text] is a total function on every Python value, [None],
    numbers, booleans, lists and dictionaries included; applying it to its
    own result changes nothing, and [clean_text(None)] is the empty
    string. *)
Theorem clean_text_idempotent :
  (∀ x : value, ∃ s : string, clean_text float_str x = s) ∧
  (∀ x : value,
     clean_text float_str (VStr (clean_text float_str x))
     = clean_text float_str x) ∧
  clean_text float_str VNone = "".
Proof.
  split; [by eauto|]. split; [|done].
  intros x. apply clean_text_fixed, clean_text_normalized.
Qed.

End CleanText.

(** ** The [result] monad *)

Lemma bind_Ok {A B} (m : result A) (f : A → result B) b :
  m ≫= f = Ok b → ∃ a, m = Ok a ∧ f a = Ok b.
Proof. destruct m as [a|e]; [by exists a | done]. Qed.

Lemma bind_Ok_l {A B} (a : A) (f : A → result B) : Ok a ≫= f = f a.
Proof. done. Qed.

(** ** [pick] *)

Lemma get_or_empty d key dflt :
  get (py_or (VDict d) (VDict [])) key dflt = Ok (dict_get d key dflt).
Proof. by destruct d. Qed.

(** On two dictionaries [pick] is the resolver of the specification. *)
Lemma pick_dicts (key : string) (enriched basic : dict) (dflt : value) :
  pick key (VDict enriched) (VDict basic) dflt
  = Ok (resolve key enriched basic dflt).
Proof.
  unfold pick, resolve. rewrite !get_or_empty. unfold dict_get. simpl.
  destruct (dict_lookup key enriched) as [v|]; simpl; [|done].
  by destruct (truthy v).
Qed.

(** C1. The fallback of [pick] goes by the truth of the value, not by the
    presence of the key: a truthy enriched value is returned; with a falsy
    enriched value (the empty string and zero included) or none at all,
    the value the basic record has under the key is returned, whatever it
    is, and the default when the basic record lacks the key. *)
Theorem pick_resolve (key : string) (enriched basic : dict) (dflt : value) :
  pick key (VDict enriched) (VDict basic) dflt
  = Ok (resolve key enriched basic dflt) ∧
  (∀ v, dict_lookup key enriched = Some v → truthy v = true →
        pick key (VDict enriched) (VDict basic) dflt = Ok v) ∧
  (truthy (dict_get enriched key VNone) = false →
   ∀ w, dict_lookup key basic = Some w →
        pick key (VDict enriched) (VDict basic) dflt = Ok w) ∧
  (truthy (dict_get enriched key VNone) = false →
   dict_lookup key basic = None →
   pick key (VDict enriched) (VDict basic) dflt = Ok dflt).
Proof.
  rewrite pick_dicts. unfold resolve, dict_get.
  split; [done|]. split; [|split].
  - intros v -> Hv. by rewrite Hv.
  - intros He w ->. destruct (dict_lookup key enriched) as [v|]; [|done].
    simpl in He. by rewrite He.
  - intros He ->. destruct (dict_lookup key enriched) as [v|]; [|done].
    simpl in He. by rewrite He.
Qed.

Lemma pick_resolve_witness :
  pick "country" (VDict [("country", VStr "")])
    (VDict [("country", VStr "UK")]) (VStr "") = Ok (VStr "UK")
  ∧ pick "master_id" (VDict [("master_id", VInt 0)]) (VDict []) (VInt 5)
    = Ok (VInt 5).
Proof.
  split.
  - exact (proj1 (proj2 (proj2
             (pick_resolve "country" [("country", VStr "")]
                [("country", VStr "UK")] (VStr ""))))
             eq_refl (VStr "UK") eq_refl).
  - exact (proj2 (proj2 (proj2
             (pick_resolve "master_id" [("master_id", VInt 0)] [] (VInt 5))))
             eq_refl eq_refl).
Defined.

Example pick_empty_string :
  pick "country" (VDict [("country", VStr "")])
    (VDict [("country", VStr "UK")]) (VStr "") = Ok (VStr "UK").
Proof. reflexivity. Qed.

Example pick_zero :
  pick "master_id" (VDict [("master_id", VInt 0)])
    (VDict [("master_id", VInt 77)]) VNone = Ok (VInt 77).
Proof. reflexivity. Qed.

Example pick_present_falsy_basic :
  pick "country" (VDict []) (VDict [("country", VStr "")]) (VStr "US")
  = Ok (VStr "").
Proof. reflexivity. Qed.

(** C10. [pick] returns on every pair of records, each a dictionary or
    [None]; a [None] or empty full record behaves like [{}], and with both
    records [None] or empty the result is the default. *)
Theorem pick_total (key : string) (full basic dflt : value) :
  is_record full = true → is_record basic = true →
  returns (pick key full basic dflt) ∧
  (is_missing full = true →
     pick key full basic dflt = pick key (VDict []) basic dflt) ∧
  (is_missing full = true → is_missing basic = true →
     pick key full basic dflt = Ok dflt).
Proof.
  intros Hf Hb. split; [|split].
  - destruct full, basic; try done; unfold pick; simpl;
      repeat match goal with
        | |- context [get (py_or (VDict ?d) _) _ _] => rewrite get_or_empty
        end; simpl;
      repeat match goal with
        | |- context [truthy ?v] => destruct (truthy v)
        end; by eexists.
  - by destruct full as [| | | | | |[|]].
  - destruct full as [| | | | | |[|]]; try done;
      by destruct basic as [| | | | | |[|]].
Qed.

Lemma pick_total_witness :
  pick "title" VNone (VDict []) (VStr "") = Ok (VStr "").
Proof.
  exact (proj2 (proj2 (pick_total "title" VNone (VDict []) (VStr "")
                         eq_refl eq_refl)) eq_refl eq_refl).
Defined.

(** ** Enrichment failure *)

Section Fallback.
Variable float_str : float → string.

Lemma pick_sentinel key msg basic dflt :
  String.eqb "_fetch_error" key = false →
  pick key (sentinel msg) basic dflt = pick key (VDict []) basic dflt.
Proof.
  intros Hk. unfold pick, sentinel, py_or, get, dict_get.
  cbn [truthy dict_lookup]. by rewrite Hk.
Qed.

Lemma assemble_row_sentinel rel_id ci basic msg :
  assemble_row float_str rel_id ci basic (sentinel msg)
  = assemble_row float_str rel_id ci basic (VDict []).
Proof.
  unfold assemble_row. by rewrite !pick_sentinel by done.
Qed.

(** C2. When the detail request of an item fails with [HTTPError], the
    loop body does exactly what it does with the enrichment switched off:
    the same row, field for field (or the same exception, or the same
    skip). *)
Theorem fetch_error_transparent (client : value → reply) (it : item)
    (rel_id : value) (msg : string) :
  item_rel_id it = Ok rel_id →
  client rel_id = HTTPError msg →
  fetch_row float_str true client it = fetch_row float_str false client it.
Proof.
  intros Hid Hc. unfold fetch_row. rewrite Hid.
  destruct (item_basic it) as [basic|e]; [simpl|done].
  destruct (truthy rel_id); [simpl|done].
  rewrite Hc. simpl. fold (sentinel msg). by rewrite assemble_row_sentinel.
Qed.

End Fallback.

Lemma fetch_error_transparent_witness :
  fetch_row Samples.float_str true Samples.client Samples.item_B
  = fetch_row Samples.float_str false Samples.client Samples.item_B.
Proof.
  apply (fetch_error_transparent Samples.float_str Samples.client
           Samples.item_B (VInt 2) "404: Release not found.");
    reflexivity.
Defined.

Example item_B_row :
  ∃ r, fetch_row Samples.float_str true Samples.client Samples.item_B
       = Ok (Some r)
    ∧ title r = VStr "Album B" ∧ format r = VStr "CD" ∧ variant r = VStr "".
Proof. eexists. split; [reflexivity|]. done. Qed.

(** ** Release date *)

Section ReleaseDate.
Variable float_str : float → string.

Lemma released_value_resolve full basic :
  resolve "released" full basic
    (py_or (dict_get basic "released_formatted" VNone)
           (dict_get basic "year" VNone))
  = released_value full basic.
Proof.
  unfold resolve, released_value, dict_get.
  destruct (dict_lookup "released" full) as [v|]; [|done].
  simpl. by destruct (truthy v).
Qed.

(** What a successful [assemble_row] on two dictionaries has computed. *)
Lemma assemble_row_inv rel_id ci full basic r :
  assemble_row float_str rel_id ci (VDict basic) (VDict full) = Ok r →
  ∃ fmt_summary variant artist date_added label ls catno gs genres ss styles,
    summarize_formats float_str (resolve "formats" full basic (VList []))
    = Ok (fmt_summary, variant) ∧
    join_names (resolve "artists" full basic (VList [])) = Ok artist ∧
    get ci "date_added" VNone = Ok date_added ∧
    join_names (resolve "labels" full basic (VList [])) = Ok label ∧
    iter (py_or (resolve "labels" full basic (VList [])) (VList [])) = Ok ls ∧
    join "|" (select "catno" ls) = Ok catno ∧
    iter (py_or (resolve "genres" full basic (VList [])) (VList [])) = Ok gs ∧
    join "|" gs = Ok genres ∧
    iter (py_or (resolve "styles" full basic (VList [])) (VList [])) = Ok ss ∧
    join "|" ss = Ok styles ∧
    r = {| release_id := rel_id;
           master_id := resolve "master_id" full basic VNone;
           artist := VStr (clean_text float_str (VStr artist));
           title := VStr (clean_text float_str
                            (resolve "title" full basic (VStr "")));
           date_added := VStr (clean_text float_str date_added);
           variant := VStr variant;
           format := VStr fmt_summary;
           release_date := VStr (clean_text float_str
                                   (released_value full basic));
           country := VStr (clean_text float_str
                              (resolve "country" full basic (VStr "")));
           label := VStr (clean_text float_str (VStr label));
           catno := VStr catno;
           genres := VStr genres;
           styles := VStr styles |}.
Proof.
  unfold assemble_row. intros H.
  rewrite !pick_dicts, get_or_empty in H. rewrite !bind_Ok_l in H.
  apply bind_Ok in H as ([fmt_summary variant] & Hfmt & H).
  rewrite bind_Ok_l in H.
  apply bind_Ok in H as (artist & Hartist & H). rewrite bind_Ok_l in H.
  apply bind_Ok in H as (date_added & Hdate & H).
  cbn [get] in H. rewrite bind_Ok_l in H.
  assert (Hd : (if truthy (dict_get basic "released_formatted" VNone)
                then Ok (dict_get basic "released_formatted" VNone)
                else Ok (dict_get basic "year" VNone))
               = Ok (py_or (dict_get basic "released_formatted" VNone)
                           (dict_get basic "year" VNone)))
    by (unfold py_or; by destruct (truthy _)).
  rewrite Hd, bind_Ok_l, pick_dicts, released_value_resolve in H.
  rewrite !bind_Ok_l in H.
  apply bind_Ok in H as (label & Hlabel & H).
  apply bind_Ok in H as (ls & Hls & H).
  apply bind_Ok in H as (catno & Hcatno & H).
  apply bind_Ok in H as (gs & Hgs & H).
  apply bind_Ok in H as (genres & Hgenres & H).
  apply bind_Ok in H as (ss & Hss & H).
  apply bind_Ok in H as (styles & Hstyles & H).
  injection H as <-.
  by exists fmt_summary, variant, artist, date_added, label, ls, catno,
    gs, genres, ss, styles.
Qed.

(** C4 (as the code has it). The release date is [clean_text] of: the
    "released" value of the full record if truthy; otherwise the
    "released" value of the basic record whenever the basic record has
    that key, falsy or not; and only when the basic record has no
    "released" key, its "released_formatted" value if truthy, otherwise
    its "year" ([None] when absent). *)
Theorem release_date_resolution (rel_id ci : value) (full basic : dict)
    (r : row) :
  assemble_row float_str rel_id ci (VDict basic) (VDict full) = Ok r →
  release_date r = VStr (clean_text float_str (released_value full basic)).
Proof.
  intros H. apply assemble_row_inv in H.
  destruct H as (?&?&?&?&?&?&?&?&?&?&?&_&_&_&_&_&_&_&_&_&_&->). done.
Qed.

(** Where the two chains agree: the basic record has no "released" key,
    or the primary value is truthy. *)
Lemma released_chain_agrees full basic :
  dict_lookup "released" basic = None ∨
  truthy (py_or (dict_get full "released" VNone)
                (dict_get basic "released" VNone)) = true →
  released_value full basic = released_chain full basic.
Proof.
  unfold released_value, released_chain, py_or, dict_get.
  destruct (dict_lookup "released" full) as [v|]; simpl;
    destruct (dict_lookup "released" basic) as [w|]; simpl;
    intros [?|?]; try done;
    repeat match goal with
      | H : truthy ?v = _ |- _ => rewrite H; simpl
      | H : context [if truthy ?v then _ else _] |- _ =>
          destruct (truthy v) eqn:?; simpl in *
      | |- context [if truthy ?v then _ else _] =>
          destruct (truthy v) eqn:?; simpl in *
      end; try done.
Qed.

End ReleaseDate.

(** A basic record with an empty "released" value keeps the empty date:
    the pre-formatted date is not consulted. *)
Lemma release_date_claim_fails : ¬ release_date_claim.
Proof.
  intros H.
  specialize (H Samples.float_str (VInt 1) (VDict []) []
                [("released", VStr ""); ("released_formatted", VStr "Jan 2020");
                 ("year", VInt 2020)]
                _ eq_refl).
  vm_compute in H. discriminate H.
Qed.

Lemma release_date_resolution_witness :
  ∃ r, assemble_row Samples.float_str (VInt 1) (VDict [])
         (VDict [("released_formatted", VStr "Jan 2020"); ("year", VInt 2020)])
         (VDict [("released", VStr "")]) = Ok r
       ∧ release_date r = VStr "Jan 2020".
Proof.
  eexists. split; [reflexivity|].
  exact (release_date_resolution Samples.float_str (VInt 1) (VDict [])
           [("released", VStr "")]
           [("released_formatted", VStr "Jan 2020"); ("year", VInt 2020)]
           _ eq_refl).
Defined.

(** ** The rows of a run *)

Section Rows.
Variable float_str : float → string.

Lemma summarize_formats_variant_clean fmt_list fmt_summary variant :
  summarize_formats float_str fmt_list = Ok (fmt_summary, variant) →
  Str.normalized variant = true.
Proof.
  destruct fmt_list as [| | | | |l|]; unfold summarize_formats;
    try (intros [= <- <-]; done).
  intros H. apply bind_Ok in H as ([parts bits] & _ & H).
  injection H as <- <-. exact (clean_text_normalized float_str (VStr _)).
Qed.

Lemma assemble_row_fields rel_id ci basic full r :
  assemble_row float_str rel_id ci basic full = Ok r →
  release_id r = rel_id ∧
  forallb is_clean (cleaned_fields r) = true ∧
  forallb is_text (joined_fields r) = true.
Proof.
  unfold assemble_row. intros H.
  repeat (let x := fresh "x" in
          let Hx := fresh "Hx" in
          apply bind_Ok in H as (x & Hx & H); try destruct x as [? ?]).
  injection H as <-.
  match goal with
  | H : summarize_formats _ _ = Ok _ |- _ =>
      apply summarize_formats_variant_clean in H
  end.
  cbn -[clean_text].
  match goal with H : Str.normalized _ = true |- _ => rewrite H end.
  rewrite <- !(clean_text_str float_str). by rewrite !clean_text_normalized.
Qed.

(** Every row of the result was produced by the loop body for one of the
    items (or was in the accumulator already). *)
Lemma fetch_loop_rows include client releases acc rows r :
  fetch_loop float_str include client releases acc = Ok rows →
  r ∈ rows →
  r ∈ acc ∨ ∃ it, it ∈ releases
                  ∧ fetch_row float_str include client it = Ok (Some r).
Proof.
  revert acc. induction releases as [|it rest IH]; intros acc; simpl.
  - intros [= <-]. by left.
  - intros H Hr. apply bind_Ok in H as (o & Ho & H).
    destruct (IH _ H Hr) as [Hacc|(it' & Hit' & Hrow)].
    + destruct o as [r'|]; [|by left].
      apply elem_of_app in Hacc as [?|Hr']; [by left|].
      apply list_elem_of_singleton in Hr' as ->.
      right. exists it. split; [left|done].
    + right. exists it'. split; [by right|done].
Qed.

Lemma fetch_row_fields include client it r :
  fetch_row float_str include client it = Ok (Some r) →
  forallb is_clean (cleaned_fields r) = true ∧
  forallb is_text (joined_fields r) = true.
Proof.
  unfold fetch_row. intros H.
  apply bind_Ok in H as (basic & _ & H).
  apply bind_Ok in H as (rel_id & _ & H).
  destruct (truthy rel_id); [simpl in H|done].
  apply bind_Ok in H as (full & _ & H).
  apply bind_Ok in H as (r' & Hr' & H). injection H as <-.
  by apply assemble_row_fields in Hr' as (_ & ? & ?).
Qed.

(** Values absent from both records come out as empty strings. *)
Lemma absent_fields_empty rel_id :
  assemble_row float_str rel_id (VDict []) (VDict []) (VDict [])
  = Ok (Row rel_id VNone (VStr "") (VStr "") (VStr "") (VStr "") (VStr "")
          (VStr "") (VStr "") (VStr "") (VStr "") (VStr "") (VStr "")).
Proof. reflexivity. Qed.

End Rows.

Lemma text_fields_claim_fails : ¬ text_fields_claim.
Proof.
  intros H.
  assert (Hrun : ∃ r,
    fetch_rows Samples.float_str Samples.client [Samples.item_C] = Ok [r]
    ∧ forallb is_clean (joined_fields r) = false
    ∧ forallb is_clean (text_fields r) = false).
  { eexists. split; [vm_compute; reflexivity|]. split; vm_compute; reflexivity. }
  destruct Hrun as (r & Hr & _ & Hbad).
  rewrite (H _ _ _ _ r Hr) in Hbad; [done|left].
Qed.

Example item_C_row :
  ∃ r, fetch_rows Samples.float_str Samples.client [Samples.item_C] = Ok [r]
     ∧ is_clean (format r) = false ∧ is_clean (catno r) = false
     ∧ is_clean (genres r) = false ∧ is_clean (styles r) = false
     ∧ format r = VStr "Vinyl LP  Mono".
Proof. eexists. split; [vm_compute; reflexivity|]. by vm_compute. Qed.

(** ** Variant bits *)

Lemma unique_bits_filter seen bits :
  unique_bits seen bits = filter (λ x, x ∉ seen) (first_occurrences bits).
Proof.
  revert seen. induction bits as [|b rest IH]; intros seen; simpl; [done|].
  rewrite filter_cons, list_filter_filter.
  destruct (decide (b ∈ seen)) as [Hb|Hb].
  - rewrite decide_False by tauto. rewrite IH.
    apply list_filter_iff. intros x. split; [|tauto].
    intros Hx. split; [done|]. by intros ->.
  - rewrite decide_True by done. f_equal. rewrite IH.
    apply list_filter_iff. intros x. set_solver.
Qed.

Lemma unique_bits_first_occurrences bits :
  unique_bits ∅ bits = first_occurrences bits.
Proof.
  rewrite unique_bits_filter. induction (first_occurrences bits) as [|x l IH];
    [done|].
  rewrite filter_cons, decide_True by set_solver. by rewrite IH.
Qed.

(** Reading the list from left to right, a bit is added at the end exactly
    when it has not been seen before. *)
Lemma unique_bits_snoc seen bits b :
  unique_bits seen (bits ++ [b])
  = unique_bits seen bits
    ++ (if decide (b ∈ seen ∨ b ∈ bits) then [] else [b]).
Proof.
  revert seen. induction bits as [|b' rest IH]; intros seen; simpl.
  - destruct (decide (b ∈ seen)).
    + by rewrite decide_True by tauto.
    + rewrite decide_False; [done|]. intros [?|?%elem_of_nil]; done.
  - destruct (decide (b' ∈ seen)); rewrite IH; simpl.
    + f_equal. apply decide_ext. set_solver.
    + do 2 f_equal. apply decide_ext. set_solver.
Qed.

Lemma first_occurrences_snoc bits b :
  first_occurrences (bits ++ [b])
  = first_occurrences bits ++ (if decide (b ∈ bits) then [] else [b]).
Proof.
  rewrite <- !unique_bits_first_occurrences, unique_bits_snoc.
  f_equal. apply decide_ext. set_solver.
Qed.

Lemma elem_of_first_occurrences bits x :
  x ∈ first_occurrences bits ↔ x ∈ bits.
Proof.
  induction bits as [|b rest IH]; simpl; [done|].
  rewrite !elem_of_cons, list_elem_of_filter, IH.
  destruct (decide (x = b)); naive_solver.
Qed.

Lemma NoDup_first_occurrences bits : NoDup (first_occurrences bits).
Proof.
  induction bits as [|b rest IH]; simpl; [constructor|].
  constructor; [|by apply NoDup_filter].
  rewrite list_elem_of_filter. naive_solver.
Qed.

Lemma sublist_first_occurrences bits : first_occurrences bits `sublist_of` bits.
Proof.
  induction bits as [|b rest IH]; simpl; [done|].
  constructor. etrans; [apply sublist_filter|done].
Qed.

Section Variant.
Variable float_str : float → string.

Lemma or_empty_string s : (if Str.nonempty s then s else "") = s.
Proof. by destruct s. Qed.

Lemma summarize_formats_list l parts bits :
  formats_loop l ([], []) = Ok (parts, bits) →
  summarize_formats float_str (VList l)
  = Ok (Str.join "|" parts,
        clean_text float_str (VStr (Str.join "|" (first_occurrences bits)))).
Proof.
  intros H. unfold summarize_formats. rewrite H, bind_Ok_l.
  by rewrite or_empty_string, unique_bits_first_occurrences.
Qed.

(** C6. The variant is [clean_text] of the [|]-join of the collected
    variant bits with every repeated bit dropped, the first occurrence
    kept and the order unchanged; bits [Red, Limited, Red] give
    [Red|Limited]; an input that is not a list gives two empty strings. *)
Theorem variant_first_occurrences :
  (∀ l parts bits,
     formats_loop l ([], []) = Ok (parts, bits) →
     summarize_formats float_str (VList l)
     = Ok (Str.join "|" parts,
           clean_text float_str
             (VStr (Str.join "|" (first_occurrences bits))))) ∧
  (∀ l parts,
     formats_loop l ([], []) = Ok (parts, ["Red"; "Limited"; "Red"]) →
     summarize_formats float_str (VList l)
     = Ok (Str.join "|" parts, "Red|Limited")) ∧
  (∀ v, is_list v = false → summarize_formats float_str v = Ok ("", "")).
Proof.
  split; [|split].
  - apply summarize_formats_list.
  - intros l parts H. by rewrite (summarize_formats_list _ _ _ H).
  - by intros [].
Qed.

End Variant.

Lemma variant_first_occurrences_witness :
  formats_loop Samples.red_limited_red ([], [])
  = Ok (["Vinyl LP Limited (Red)"; "Vinyl (Red)"], ["Red"; "Limited"; "Red"])
  ∧ summarize_formats Samples.float_str (VList Samples.red_limited_red)
    = Ok ("Vinyl LP Limited (Red)|Vinyl (Red)", "Red|Limited").
Proof.
  split; [vm_compute; reflexivity|].
  apply (proj1 (proj2 (variant_first_occurrences Samples.float_str))
           Samples.red_limited_red
           ["Vinyl LP Limited (Red)"; "Vinyl (Red)"]).
  vm_compute; reflexivity.
Defined.

(** ** Format entries *)

Lemma strip_or_empty v :
  text_like v = true → strip (py_or v (VStr "")) = Ok (Str.strip (text_of v)).
Proof.
  unfold py_or.
  destruct v as [|b|z|f|s|l|d]; simpl;
    try (by intros ->%negb_true_iff); [done|].
  by destruct s.
Qed.

Lemma scan_descs_ok ds bits :
  forallb text_like ds = true →
  scan_descs ds bits
  = Ok (bits ++ filter (λ d, sniff d = true) (Str.strip <$> (text_of <$> ds))).
Proof.
  revert bits. induction ds as [|d ds IH]; intros bits; simpl.
  - intros _. by rewrite app_nil_r.
  - intros [Hd Hds]%andb_true_iff. rewrite (strip_or_empty _ Hd), bind_Ok_l.
    rewrite (IH _ Hds), filter_cons.
    destruct (sniff (Str.strip (text_of d))); simpl; [|done].
    by rewrite <- app_assoc.
Qed.

Lemma text_like_cases v :
  text_like v = true →
  (∃ s, v = VStr s) ∨ (truthy v = false ∧ text_of v = "").
Proof.
  destruct v; simpl; intros Hv;
    try (right; split; [by apply negb_true_iff|done]).
  left. by eexists.
Qed.

Lemma strings_truthy ds :
  forallb text_like ds = true →
  strings (filter (λ d, truthy d = true) ds)
  = Ok (filter (λ d, Str.nonempty d = true) (text_of <$> ds)).
Proof.
  induction ds as [|d ds IH]; simpl; [done|].
  intros [Hd Hds]%andb_true_iff. rewrite !filter_cons.
  destruct (text_like_cases _ Hd) as [[s ->]|[Htr Hs]].
  - simpl. destruct (Str.nonempty s); simpl; [|by apply IH].
    by rewrite (IH Hds).
  - rewrite Htr, Hs. simpl. by apply IH.
Qed.

Lemma iter_descs_ok v :
  descs_ok v = true →
  ∃ ds, iter (py_or v (VList [])) = Ok ds
        ∧ forallb text_like ds = true
        ∧ text_of <$> ds = descriptions_of v.
Proof.
  intros Hv. unfold py_or. destruct (truthy v) eqn:Htr.
  - destruct v as [|b|z|f|s|l|d]; simpl in Hv, Htr;
      try (by rewrite Htr in Hv); try done.
    + eexists. split; [done|]. split.
      * apply forallb_forall. intros x [y [<- _]]%in_map_iff. done.
      * simpl. by rewrite <- list_fmap_compose, list_fmap_id.
    + by exists l.
    + eexists. split; [done|]. split.
      * apply forallb_forall. intros x [y [<- _]]%in_map_iff. done.
      * simpl. by rewrite <- list_fmap_compose.
  - exists []. split; [done|]. split; [done|].
    by destruct v as [|b|z|f|[|]|[|]|[|]].
Qed.

(** What the loop body does with a well-typed entry. *)
Lemma format_entry_ok fmt parts bits :
  entry_ok fmt = true →
  format_entry fmt (parts, bits)
  = Ok (parts ++ pieces (summary_piece (field fmt "name") (field fmt "text")
                           (field fmt "qty") (descriptions fmt)),
        bits ++ entry_bits (field fmt "text") (descriptions fmt)).
Proof.
  unfold entry_ok. rewrite !andb_true_iff. intros [[[Hn Hq] Ht] Hd].
  unfold format_entry.
  rewrite (strip_or_empty _ Hn), (strip_or_empty _ Hq), (strip_or_empty _ Ht).
  rewrite !bind_Ok_l.
  destruct (iter_descs_ok _ Hd) as (ds & Hiter & Hds & Hdescs).
  rewrite Hiter, !bind_Ok_l. rewrite (scan_descs_ok _ _ Hds), !bind_Ok_l.
  unfold join. cbn [strings].
  rewrite (strings_truthy _ Hds), !bind_Ok_l, Hdescs.
  fold (descriptions fmt).
  fold (field fmt "name") (field fmt "text") (field fmt "qty").
  f_equal. f_equal.
  - unfold pieces, summary_piece, build_piece.
    destruct (Str.nonempty _); [done|by rewrite app_nil_r].
  - unfold entry_bits. destruct (Str.nonempty (field fmt "text")); simpl;
      by rewrite <- ?app_assoc.
Qed.

(** Where the trimming of the stages changes nothing: the name is not
    empty and no description starts or ends with white space. *)
Lemma summary_piece_claimed name text qty descs :
  name ≠ "" → Str.trimmed name = true →
  Str.trimmed text = true → Str.trimmed qty = true →
  Forall (λ d, Str.trimmed d = true) descs →
  summary_piece name text qty descs = claimed_piece name text qty descs.
Proof.
  intros Hn Hnt Htt Hqt Hds. unfold summary_piece, claimed_piece.
  destruct (Trim.trimmed_join name
              (filter (λ d, Str.nonempty d = true) descs) Hn Hnt)
    as [Hj Hjt].
  { apply Forall_forall. intros d [Hd Hin]%list_elem_of_filter. split.
    - by destruct d.
    - by apply (proj1 (Forall_forall _ _) Hds). }
  set (joined := Str.join " " _) in *.
  rewrite (Trim.strip_trimmed joined Hjt).
  assert (Hp : ∀ p t, p ≠ "" → Str.trimmed p = true →
               Str.strip (p +:+ " (" +:+ t +:+ ")") = p +:+ " (" +:+ t +:+ ")").
  { intros p t Hp Hpt. apply Trim.strip_trimmed.
    change (p +:+ " (" +:+ t +:+ ")") with (p +:+ (" (" +:+ t) +:+ ")").
    by apply Trim.trimmed_app. }
  destruct (Str.nonempty text) eqn:Htext.
  - rewrite (Hp joined text Hj Hjt).
    destruct (Str.nonempty qty) eqn:Hqty; [|done].
    apply Trim.strip_trimmed, Trim.trimmed_app; try done.
    + by apply Trim.app_nonempty.
    + by destruct qty.
    + change (joined +:+ " (" +:+ text +:+ ")")
        with (joined +:+ (" (" +:+ text) +:+ ")").
      by apply Trim.trimmed_app.
  - destruct (Str.nonempty qty) eqn:Hqty; [|done].
    apply Trim.strip_trimmed, Trim.trimmed_app; try done. by destruct qty.
Qed.

(** C7 (as the code has it). For an entry whose name, qty and text are
    strings or falsy and whose descriptions can be walked, the summary
    piece is the trimmed name followed by each non-empty description,
    space-joined and trimmed; with a non-empty trimmed text it becomes
    [{piece} ({text})], trimmed; with a non-empty trimmed qty [ x{qty}] is
    appended and the result trimmed; an empty piece is discarded.  The
    trimming of the stages changes nothing when the name is not empty and
    no description starts or ends with white space.  The entry Vinyl,
    qty 1, text Red, descriptions LP and Album gives
    [Vinyl LP Album (Red) x1]. *)
Theorem summary_piece_of_entry (fmt : dict) (parts bits : list string) :
  entry_ok fmt = true →
  (∃ bits',
     format_entry fmt (parts, bits)
     = Ok (parts ++ pieces (summary_piece (field fmt "name") (field fmt "text")
                              (field fmt "qty") (descriptions fmt)),
           bits')) ∧
  (field fmt "name" ≠ "" →
   Forall (λ d, Str.trimmed d = true) (descriptions fmt) →
   summary_piece (field fmt "name") (field fmt "text") (field fmt "qty")
     (descriptions fmt)
   = claimed_piece (field fmt "name") (field fmt "text") (field fmt "qty")
       (descriptions fmt)) ∧
  summary_piece "Vinyl" "Red" "1" ["LP"; "Album"] = "Vinyl LP Album (Red) x1".
Proof.
  intros Hok. split; [|split; [|reflexivity]].
  - eexists. by apply format_entry_ok.
  - intros Hname Hdescs.
    apply summary_piece_claimed; try done; apply Trim.trimmed_strip.
Qed.

(** An entry with a text and no name: the code gives [(Red)], the worded
    formula a leading space. *)
Lemma summary_piece_claim_fails : ¬ summary_piece_claim.
Proof.
  intros H.
  specialize (H [("text", VStr "Red")] [] [] ["(Red)"] ["Red"] eq_refl).
  vm_compute in H. discriminate H.
Qed.

Example nameless_entry :
  format_entry [("text", VStr "Red")] ([], []) = Ok (["(Red)"], ["Red"])
  ∧ claimed_piece "" "Red" "" [] = " (Red)".
Proof. split; reflexivity. Qed.

Lemma summary_piece_of_entry_witness :
  ∃ bits',
    format_entry
      [("name", VStr "Vinyl"); ("qty", VStr "1"); ("text", VStr "Red");
       ("descriptions", VList [VStr "LP"; VStr "Album"])] ([], [])
    = Ok (["Vinyl LP Album (Red) x1"], bits').
Proof.
  exact (proj1 (summary_piece_of_entry
                  [("name", VStr "Vinyl"); ("qty", VStr "1");
                   ("text", VStr "Red");
                   ("descriptions", VList [VStr "LP"; VStr "Album"])] [] []
                  eq_refl)).
Defined.

(** ** Malformed entries *)

Lemma formats_loop_ok l st :
  formats_ok l = true → returns (formats_loop l st).
Proof.
  revert st. induction l as [|e l IH]; intros st; simpl; [by eexists|].
  intros [He Hl]%andb_true_iff.
  destruct e as [|b|z|f|s|l'|fmt]; try by apply IH.
  destruct st as [parts bits]. rewrite (format_entry_ok _ _ _ He), bind_Ok_l.
  by apply IH.
Qed.

Lemma formats_loop_skip l st :
  formats_loop l st = formats_loop (filter (λ e, is_dict e = true) l) st.
Proof.
  revert st. induction l as [|e l IH]; intros st; [done|].
  rewrite filter_cons.
  destruct e as [|b|z|f|s|l'|fmt]; simpl; try apply IH.
  destruct (format_entry fmt st) as [st'|]; simpl; [apply IH|done].
Qed.

Lemma format_entry_no_descs fmt st :
  truthy (dict_get fmt "descriptions" (VList [])) = false →
  format_entry fmt st = format_entry (("descriptions", VList []) :: fmt) st.
Proof.
  intros Hd.
  assert (Hl : py_or (dict_get fmt "descriptions" (VList [])) (VList [])
               = VList []) by (unfold py_or; by rewrite Hd).
  unfold format_entry. destruct st as [parts bits]. rewrite Hl. reflexivity.
Qed.

Section Totality.
Variable float_str : float → string.

(** C8 (as the code has it). [summarize_formats] returns on every list
    whose dictionary entries have a string or a falsy value (or nothing)
    under name, qty and text, and under descriptions nothing, a falsy
    value, or a list of strings and falsy values (a string or a
    dictionary is walked too).  Entries that are not dictionaries are
    skipped one by one, and descriptions that are absent or falsy count as
    the empty list. *)
Theorem summarize_formats_total (fmt_list : list value) :
  formats_ok fmt_list = true →
  returns (summarize_formats float_str (VList fmt_list)) ∧
  summarize_formats float_str (VList fmt_list)
  = summarize_formats float_str
      (VList (filter (λ e, is_dict e = true) fmt_list)) ∧
  (∀ fmt st,
     VDict fmt ∈ fmt_list →
     truthy (dict_get fmt "descriptions" (VList [])) = false →
     format_entry fmt st
     = format_entry (("descriptions", VList []) :: fmt) st).
Proof.
  intros Hok. split; [|split].
  - unfold summarize_formats.
    destruct (formats_loop_ok _ ([], []) Hok) as [[parts bits] ->].
    by eexists.
  - unfold summarize_formats. by rewrite <- formats_loop_skip.
  - intros fmt st _. apply format_entry_no_descs.
Qed.

End Totality.

(** Descriptions that are a number cannot be walked. *)
Lemma formats_total_claim_fails : ¬ formats_total_claim.
Proof.
  intros H.
  destruct (H Samples.float_str
              [VDict [("name", VStr "CD"); ("descriptions", VInt 5)]])
    as [a Ha].
  vm_compute in Ha. discriminate Ha.
Qed.

Example number_as_name :
  summarize_formats Samples.float_str (VList [VDict [("name", VInt 5)]])
  = Raise AttributeError.
Proof. reflexivity. Qed.

Example string_as_descriptions :
  summarize_formats Samples.float_str
    (VList [VDict [("name", VStr "CD"); ("descriptions", VStr "LP")]])
  = Ok ("CD L P", "").
Proof. reflexivity. Qed.

Lemma summarize_formats_total_witness :
  returns (summarize_formats Samples.float_str
             (VList [VInt 7; VDict [("name", VStr "CD"); ("qty", VNone);
                                    ("descriptions", VNone)]; VNone])).
Proof.
  apply (summarize_formats_total Samples.float_str
           [VInt 7; VDict [("name", VStr "CD"); ("qty", VNone);
                           ("descriptions", VNone)]; VNone]).
  reflexivity.
Defined.

(** ** Well-typed records *)

Lemma strings_select key objs :
  named_ok key objs = true → returns (strings (select key objs)).
Proof.
  induction objs as [|o objs IH]; simpl; [by eexists|].
  intros [Ho Hobjs]%andb_true_iff. destruct (IH Hobjs) as [ss Hss].
  destruct o as [|b|z|f|s|l|d]; try by eexists.
  unfold dict_get in *. destruct (dict_lookup key d) as [v|]; simpl in *;
    [|by eexists].
  destruct (text_like_cases _ Ho) as [[s ->]|[-> _]]; [|by eexists].
  simpl. destruct (Str.nonempty s); [|by eexists].
  simpl. rewrite Hss. by eexists.
Qed.

Lemma join_returns sep l : returns (strings l) → returns (join sep l).
Proof. intros [ss Hss]. unfold join. rewrite Hss. by eexists. Qed.

Lemma join_names_returns v : names_ok v = true → returns (join_names v).
Proof.
  destruct v as [|b|z|f|s|l|d]; simpl; try by eexists.
  intros Hl. by apply join_returns, strings_select.
Qed.

Lemma select_not_dicts key (l : list value) :
  Forall (λ o, is_dict o = false) l → select key l = [].
Proof.
  induction 1 as [|o l Ho _ IH]; [done|]. simpl. by destruct o.
Qed.

Lemma catno_returns v :
  labels_ok v = true →
  ∃ ls, iter (py_or v (VList [])) = Ok ls
        ∧ returns (join "|" (select "catno" ls)).
Proof.
  unfold py_or. intros Hv. destruct (truthy v) eqn:Htr.
  - destruct v as [|b|z|f|s|l|d]; simpl in Hv, Htr;
      try (by rewrite Htr in Hv); try done.
    + eexists. split; [done|]. rewrite select_not_dicts; [by eexists|].
      apply Forall_fmap, Forall_true. done.
    + apply andb_true_iff in Hv as [_ Hv]. exists l. split; [done|].
      by apply join_returns, strings_select.
    + eexists. split; [done|]. rewrite select_not_dicts; [by eexists|].
      apply Forall_fmap, Forall_true. done.
  - exists []. split; [done|]. by eexists.
Qed.

Lemma strings_texts l : forallb is_text l = true → returns (strings l).
Proof.
  induction l as [|v l IH]; simpl; [by eexists|].
  intros [Hv Hl]%andb_true_iff. destruct (IH Hl) as [ss Hss].
  destruct v; try done. rewrite Hss. by eexists.
Qed.

Lemma strs_returns v :
  strs_ok v = true →
  ∃ gs, iter (py_or v (VList [])) = Ok gs ∧ returns (join "|" gs).
Proof.
  unfold py_or. intros Hv. destruct (truthy v) eqn:Htr.
  - destruct v as [|b|z|f|s|l|d]; simpl in Hv, Htr;
      try (by rewrite Htr in Hv); try done.
    + eexists. split; [done|]. apply join_returns, strings_texts.
      apply forallb_forall. intros x [y [<- _]]%in_map_iff. done.
    + exists l. split; [done|]. by apply join_returns, strings_texts.
    + eexists. split; [done|]. apply join_returns, strings_texts.
      apply forallb_forall. intros x [y [<- _]]%in_map_iff. done.
  - exists []. split; [done|]. by eexists.
Qed.

Section Returns.
Variable float_str : float → string.

Lemma summarize_formats_returns v :
  formats_value_ok v = true → returns (summarize_formats float_str v).
Proof.
  destruct v as [|b|z|f|s|l|d]; simpl; try by eexists.
  intros Hl. destruct (formats_loop_ok _ ([], []) Hl) as [[parts bits] ->].
  by eexists.
Qed.

(** On well-typed records the row assembly returns. *)
Lemma assemble_row_returns rel_id ci full basic :
  records_ok full basic = true →
  returns (assemble_row float_str rel_id (VDict ci) (VDict basic) (VDict full)).
Proof.
  unfold records_ok. rewrite !andb_true_iff.
  intros [[[[Ha Hl] Hf] Hg] Hs]. unfold assemble_row.
  rewrite !pick_dicts, get_or_empty, !bind_Ok_l.
  destruct (summarize_formats_returns _ Hf) as [[fmt_summary variant] ->].
  rewrite !bind_Ok_l.
  destruct (join_names_returns _ Ha) as [artist ->]. rewrite !bind_Ok_l.
  cbn [get]. rewrite !bind_Ok_l.
  assert (Hd : (if truthy (dict_get basic "released_formatted" VNone)
                then Ok (dict_get basic "released_formatted" VNone)
                else Ok (dict_get basic "year" VNone))
               = Ok (py_or (dict_get basic "released_formatted" VNone)
                           (dict_get basic "year" VNone)))
    by (unfold py_or; by destruct (truthy _)).
  rewrite Hd, bind_Ok_l, pick_dicts, !bind_Ok_l.
  assert (Hn : names_ok (resolve "labels" full basic (VList [])) = true).
  { destruct (resolve "labels" full basic (VList [])); try done.
    by apply andb_true_iff in Hl as [? _]. }
  destruct (join_names_returns _ Hn) as [label ->]. rewrite !bind_Ok_l.
  destruct (catno_returns _ Hl) as (ls & Hls & [catno Hc]).
  rewrite Hls, bind_Ok_l, Hc, bind_Ok_l.
  destruct (strs_returns _ Hg) as (gs & Hgs & [genres Hgenres]).
  rewrite Hgs, bind_Ok_l, Hgenres, bind_Ok_l.
  destruct (strs_returns _ Hs) as (ss & Hss & [styles Hstyles]).
  rewrite Hss, bind_Ok_l, Hstyles, bind_Ok_l.
  by eexists.
Qed.

Lemma item_basic_ok it :
  data_ok it = true →
  item_basic it = Ok (VDict (basic_record it)) ∧ ∃ ci, item_ci it = VDict ci.
Proof.
  unfold data_ok, item_basic, item_ci, basic_record.
  destruct (item_data it) as [v|]; simpl; [|intros _; split; by eexists].
  unfold py_or at 2 3. destruct (truthy v) eqn:Hv.
  - destruct v as [|b|z|f|s|l|ci]; simpl in Hv |- *;
      try (by rewrite ?Hv); try done.
    unfold dict_get. destruct (dict_lookup "basic_information" ci) as [w|];
      simpl; [|intros _; split; by eexists].
    unfold py_or. destruct (truthy w) eqn:Hw; simpl.
    + destruct w; try done. intros _. split; by eexists.
    + intros _. split; [|by eexists]. by destruct w as [|?|?|?|?|?|[|]].
  - intros _. simpl. split; [|by eexists].
    by destruct v as [|?|?|?|?|?|[|]].
Qed.

Lemma item_rel_id_ok it :
  data_ok it = true →
  item_rel_id it = Ok (identity it)
  ∧ truthy (identity it) = has_identity it.
Proof.
  intros Hok. destruct (item_basic_ok _ Hok) as [Hb _].
  unfold item_rel_id, identity, has_identity, py_or. rewrite Hb, bind_Ok_l.
  destruct (truthy (default VNone (item_release_id it))) eqn:Hown; [|done].
  by rewrite Hown.
Qed.

Lemma fetch_full_ok include client rel_id full :
  full_record include client rel_id = Some full →
  fetch_full include client rel_id = Ok (VDict full).
Proof.
  unfold full_record, fetch_full. destruct include; [|by intros [= <-]].
  destruct (client rel_id) as [v|msg|]; [|by intros [= <-]|done].
  unfold py_or. destruct v as [|b|z|f|s|l|d];
    try (destruct (truthy _); [done|by intros [= <-]]).
  intros [= <-]. by destruct d.
Qed.

Lemma fetch_row_returns include client it :
  item_ok include client it = true →
  returns (fetch_row float_str include client it).
Proof.
  unfold item_ok. intros [Hdata Hrec]%andb_true_iff.
  destruct (item_basic_ok _ Hdata) as [Hb [ci Hci]].
  destruct (item_rel_id_ok _ Hdata) as [Hid Htr].
  unfold fetch_row. rewrite Hb, Hid, !bind_Ok_l, Htr.
  destruct (has_identity it); simpl in *; [|by eexists].
  destruct (full_record include client (identity it)) as [full|] eqn:Hfull;
    [|done].
  rewrite (fetch_full_ok _ _ _ _ Hfull), bind_Ok_l, Hci.
  destruct (assemble_row_returns (identity it) ci _ _ Hrec) as [r ->].
  by eexists.
Qed.

Lemma fetch_loop_total include client releases acc :
  (∀ it, it ∈ releases → item_ok include client it = true) →
  returns (fetch_loop float_str include client releases acc).
Proof.
  revert acc. induction releases as [|it rest IH]; intros acc Hok; simpl;
    [by eexists|].
  destruct (fetch_row_returns include client it) as [o ->];
    [apply Hok; left|].
  rewrite bind_Ok_l. apply IH. intros it' Hin. apply Hok. by right.
Qed.

End Returns.

(** ** Release identity *)

Section Identity.
Variable float_str : float → string.

Lemma item_basic_inv it basic :
  item_basic it = Ok basic →
  basic = VDict (basic_record it)
  ∨ (truthy basic = true ∧ get basic "id" VNone = Raise AttributeError).
Proof.
  unfold item_basic, item_ci, basic_record.
  destruct (item_data it) as [v|]; simpl; [|intros [= <-]; by left].
  unfold py_or at 2. destruct (truthy v) eqn:Hv.
  - destruct v as [| | | | | |ci]; try done. simpl. unfold dict_get.
    destruct (dict_lookup "basic_information" ci) as [w|]; simpl;
      [|intros [= <-]; by left].
    unfold py_or. destruct (truthy w) eqn:Hw; intros [= <-].
    + destruct w; try (by right); by left.
    + left. by destruct w as [| | | | | |[|]].
  - simpl. intros [= <-]. left. by destruct v as [| | | | | |[|]].
Qed.

Lemma item_rel_id_inv it rel_id :
  item_rel_id it = Ok rel_id → truthy rel_id = has_identity it.
Proof.
  unfold item_rel_id, has_identity. intros H.
  apply bind_Ok in H as (basic & Hb & H).
  destruct (truthy (default VNone (item_release_id it))) eqn:Hown.
  - by injection H as <-.
  - apply item_basic_inv in Hb as [->|[_ Hb]]; [|by rewrite Hb in H].
    simpl in H. by injection H as <-.
Qed.

(** The loop body emits a row exactly for an item with an identity. *)
Lemma fetch_row_emits include client it o :
  fetch_row float_str include client it = Ok o →
  is_Some o ↔ has_identity it = true.
Proof.
  unfold fetch_row. intros H.
  apply bind_Ok in H as (basic & _ & H).
  apply bind_Ok in H as (rel_id & Hid & H).
  apply item_rel_id_inv in Hid. rewrite <- Hid.
  destruct (truthy rel_id); simpl in H.
  - apply bind_Ok in H as (full & _ & H).
    apply bind_Ok in H as (r & _ & H). injection H as <-. by split.
  - injection H as <-. split; [by intros [? ?]|done].
Qed.

Lemma fetch_loop_returns include client releases acc rows it :
  fetch_loop float_str include client releases acc = Ok rows →
  it ∈ releases → returns (fetch_row float_str include client it).
Proof.
  revert acc. induction releases as [|it' rest IH]; intros acc; simpl.
  - intros _ Hin. by apply elem_of_nil in Hin.
  - intros H Hin. apply bind_Ok in H as (o & Ho & H).
    apply elem_of_cons in Hin as [->|Hin]; [by exists o|by eapply IH].
Qed.

(** The rows of a run are the rows of the items with an identity, in the
    order of the listing. *)
Lemma fetch_loop_Forall2 include client releases acc rows :
  fetch_loop float_str include client releases acc = Ok rows →
  ∃ new, rows = acc ++ new ∧
    Forall2 (λ it r, fetch_row float_str include client it = Ok (Some r))
      (filter (λ it, has_identity it = true) releases) new.
Proof.
  revert acc. induction releases as [|it rest IH]; intros acc; simpl.
  - intros [= <-]. exists []. by rewrite app_nil_r.
  - intros H. apply bind_Ok in H as (o & Ho & H).
    pose proof (fetch_row_emits _ _ _ _ Ho) as Hiff.
    apply IH in H as (new & -> & Hnew).
    rewrite filter_cons. destruct o as [r|].
    + rewrite decide_True by (apply Hiff; by eexists).
      exists (r :: new). split; [by rewrite <- app_assoc|].
      by constructor.
    + rewrite decide_False; [by exists new|].
      intros Hid. apply Hiff in Hid as [? ?]. done.
Qed.

Lemma filter_split_length (releases : list item) :
  length (filter (λ it, has_identity it = true) releases)
  + skipped releases = length releases.
Proof.
  unfold skipped. induction releases as [|it rest IH]; [done|].
  rewrite !filter_cons. destruct (has_identity it) eqn:Hit.
  - rewrite decide_True, decide_False by done. simpl. lia.
  - rewrite decide_False, decide_True by done. simpl. lia.
Qed.

(** C5. In a run that returns, the rows are exactly the rows of the items
    that have a truthy release identity (their own, or the "id" of their
    basic record), in listing order; an item without one yields no row and
    no error; and the number of rows is the number of items minus the
    number of skipped ones.  The run does return when the records of
    every item are well typed and the client answers each detail request
    with a record or with [HTTPError]. *)
Theorem rows_iff_identity (include_full_release : bool)
    (client : value → reply) (releases : list item) :
  (∀ rows,
     fetch_rows_with float_str include_full_release client releases = Ok rows →
     Forall2 (λ it r,
         fetch_row float_str include_full_release client it = Ok (Some r))
       (filter (λ it, has_identity it = true) releases) rows ∧
     (∀ it, it ∈ releases →
        (has_identity it = true ↔
         ∃ r, fetch_row float_str include_full_release client it
              = Ok (Some r))
        ∧ (has_identity it = false →
           fetch_row float_str include_full_release client it = Ok None)) ∧
     length rows = length releases - skipped releases) ∧
  (Forall (λ it, item_ok include_full_release client it = true) releases →
   returns (fetch_rows_with float_str include_full_release client releases)).
Proof.
  split.
  - intros rows Hrun. split; [|split].
    + apply fetch_loop_Forall2 in Hrun as (new & -> & Hnew). done.
    + intros it Hin.
      destruct (fetch_loop_returns _ _ _ _ _ _ Hrun Hin) as [o Ho].
      pose proof (fetch_row_emits _ _ _ _ Ho) as Hiff. rewrite Ho. split.
      * rewrite <- Hiff. split; [intros [r ->]; by exists r|].
        intros [r [= ->]]. by eexists.
      * intros Hno. destruct o as [r|]; [|done].
        assert (has_identity it = true) by (apply Hiff; by eexists).
        congruence.
    + apply fetch_loop_Forall2 in Hrun as (new & -> & Hnew).
      apply Forall2_length in Hnew. simpl.
      pose proof (filter_split_length releases). lia.
  - intros Hok. unfold fetch_rows_with. apply fetch_loop_total.
    by apply (proj1 (Forall_forall _ _)).
Qed.

End Identity.

Lemma rows_iff_identity_witness :
  ∃ rows,
    fetch_rows_with Samples.float_str true Samples.client
      [Samples.item_A; Samples.item_D; Samples.item_B] = Ok rows
    ∧ length rows
      = 3 - skipped [Samples.item_A; Samples.item_D; Samples.item_B]
    ∧ skipped [Samples.item_A; Samples.item_D; Samples.item_B] = 1.
Proof.
  destruct (rows_iff_identity Samples.float_str true Samples.client
              [Samples.item_A; Samples.item_D; Samples.item_B])
    as [Hrows Hreturns].
  destruct Hreturns as [rows Hrun].
  { repeat (constructor; [vm_compute; reflexivity|]). constructor. }
  exists rows. split; [exact Hrun|]. split; [|vm_compute; reflexivity].
  destruct (Hrows rows Hrun) as (_ & _ & Hlen). exact Hlen.
Defined.

(** ** What [clean_text] keeps *)

Module Solid.
Import Str.

Lemma solid_replace old s :
  is_space old = true → solid (replace old " " s) = solid s.
Proof.
  intros Hold. induction s as [|c s IH]; simpl; [done|].
  destruct (Ascii.eqb_spec c old) as [->|_]; [|by rewrite IH].
  by rewrite Hold.
Qed.

Lemma solid_sub_ws b s : solid (sub_ws b s) = solid s.
Proof.
  revert b. induction s as [|c s IH]; intros b; simpl; [done|].
  destruct (is_space c) eqn:Hc; [by destruct b; simpl; rewrite IH|].
  simpl. by rewrite Hc, IH.
Qed.

Lemma solid_lstrip s : solid (lstrip s) = solid s.
Proof.
  induction s as [|c s IH]; simpl; [done|].
  destruct (is_space c) eqn:Hc; [done|]. simpl. by rewrite Hc.
Qed.

Lemma solid_rstrip s : solid (rstrip s) = solid s.
Proof.
  induction s as [|c s IH]; simpl; [done|]. rewrite <- IH.
  destruct (rstrip s) as [|c' r]; simpl.
  - destruct (is_space c) eqn:Hc; [done|]. simpl. by rewrite Hc.
  - done.
Qed.

Lemma length_replace old new s :
  String.length (replace old new s) = String.length s.
Proof. induction s as [|c s IH]; simpl; [done|]. by rewrite IH. Qed.

Lemma length_sub_ws b s :
  (String.length (sub_ws b s) ≤ String.length s)%nat.
Proof.
  revert b. induction s as [|c s IH]; intros b; simpl; [done|].
  destruct (is_space c); [destruct b|]; simpl;
    pose proof (IH true); pose proof (IH false); lia.
Qed.

Lemma length_lstrip s : (String.length (lstrip s) ≤ String.length s)%nat.
Proof.
  induction s as [|c s IH]; simpl; [done|].
  destruct (is_space c); simpl; lia.
Qed.

Lemma length_rstrip s : (String.length (rstrip s) ≤ String.length s)%nat.
Proof.
  induction s as [|c s IH]; simpl; [done|].
  destruct (rstrip s) as [|c' r]; [destruct (is_space c)|]; simpl in *; lia.
Qed.

Lemma dense_tidy b s : dense s = true → s ≠ "" → tidy b s = true.
Proof.
  revert b. induction s as [|c s IH]; intros b; simpl; [done|].
  intros [Hc Hs]%andb_true_iff _. apply negb_true_iff in Hc. rewrite Hc.
  destruct s as [|c' s]; [done|]. by apply IH.
Qed.

Lemma dense_normalized s : dense s = true → normalized s = true.
Proof. destruct s as [|c s]; [done|]. intros Hs. by apply dense_tidy. Qed.

Lemma digit_not_space n : is_space (pretty_N_char n) = false.
Proof. unfold pretty_N_char. by repeat case_match. Qed.

Lemma dense_pretty_N_go x s : dense s = true → dense (pretty_N_go x s) = true.
Proof.
  revert s. induction (N.lt_wf_0 x) as [x _ IH]; intros s Hs.
  destruct (decide (x = 0)%N) as [->|Hx]; [by rewrite pretty_N_go_0|].
  rewrite pretty_N_go_step by lia. apply IH.
  - apply N.div_lt; lia.
  - simpl. by rewrite digit_not_space.
Qed.

Lemma dense_pretty_Z (z : Z) : dense (pretty z) = true.
Proof.
  destruct z as [|p|p]; [done| |].
  - unfold pretty, pretty_Z, pretty, pretty_positive, pretty, pretty_N.
    by apply dense_pretty_N_go.
  - change (pretty (Z.neg p)) with ("-" +:+ pretty (N.pos p)).
    simpl. unfold pretty, pretty_N. simpl. by apply dense_pretty_N_go.
Qed.

End Solid.

Section CleanTextMore.
Variable float_str : float → string.

(** Anything but [None] is printed by [str] first. *)
Lemma clean_text_of_str v :
  v ≠ VNone →
  clean_text float_str v = clean_text float_str (VStr (str float_str v)).
Proof. by destruct v. Qed.

Lemma solid_clean_text s : solid (clean_text float_str (VStr s)) = solid s.
Proof.
  rewrite clean_text_str. unfold Str.strip.
  rewrite Solid.solid_rstrip, Solid.solid_lstrip, Solid.solid_sub_ws.
  by rewrite !Solid.solid_replace.
Qed.

Lemma length_clean_text s :
  (String.length (clean_text float_str (VStr s)) ≤ String.length s)%nat.
Proof.
  rewrite clean_text_str. unfold Str.strip.
  etrans; [apply Solid.length_rstrip|].
  etrans; [apply Solid.length_lstrip|].
  etrans; [apply Solid.length_sub_ws|].
  by rewrite !Solid.length_replace.
Qed.

(** [clean_text] only touches white space: for a value other than [None]
    the characters of the result that are not white space are those of
    [str(v)], in the same order, and the result is never longer than
    [str(v)]. *)
Theorem clean_text_keeps_solid (v : value) :
  v ≠ VNone →
  solid (clean_text float_str v) = solid (str float_str v) ∧
  (String.length (clean_text float_str v)
   ≤ String.length (str float_str v))%nat.
Proof.
  intros Hv. rewrite (clean_text_of_str v Hv).
  split; [apply solid_clean_text|apply length_clean_text].
Qed.

(** The strings [clean_text] leaves alone are exactly the normalised
    ones. *)
Theorem clean_text_fixed_iff (s : string) :
  clean_text float_str (VStr s) = s ↔ Str.normalized s = true.
Proof.
  split; [|apply clean_text_fixed].
  intros <-. apply clean_text_normalized.
Qed.

(** The result is empty exactly when the string has nothing but white
    space. *)
Theorem clean_text_empty_iff (s : string) :
  clean_text float_str (VStr s) = "" ↔ solid s = "".
Proof.
  split.
  - intros Hs. by rewrite <- (solid_clean_text s), Hs.
  - intros Hs. pose proof (clean_text_normalized float_str (VStr s)) as Hn.
    pose proof (solid_clean_text s) as Hsolid. rewrite Hs in Hsolid.
    destruct (clean_text float_str (VStr s)) as [|c t]; [done|].
    simpl in Hn, Hsolid. destruct (Str.is_space c); [|done].
    by rewrite andb_false_r in Hn.
Qed.

(** An integer comes out as its decimal digits, untouched. *)
Theorem clean_text_int (z : Z) : clean_text float_str (VInt z) = pretty z.
Proof.
  rewrite clean_text_of_str by done. apply clean_text_fixed.
  apply Solid.dense_normalized, Solid.dense_pretty_Z.
Qed.

End CleanTextMore.

Lemma clean_text_keeps_solid_witness :
  solid (clean_text Samples.float_str (VStr "  LP   Mono ")) = "LPMono".
Proof.
  exact (proj1 (clean_text_keeps_solid Samples.float_str
                  (VStr "  LP   Mono ") ltac:(discriminate))).
Defined.

(** ** When [pick] raises *)

(** [pick] raises nothing but [AttributeError], and exactly when the full
    record is a truthy non-dictionary, or the full record offers no truthy
    value and the basic record is a truthy non-dictionary.  A truthy value
    of the full record is returned without a look at the basic record. *)
Theorem pick_raises (key : string) (full basic dflt : value) :
  (pick key full basic dflt = Raise AttributeError ↔
   not_record full = true
   ∨ (truthy (value_at full key) = false ∧ not_record basic = true)) ∧
  (∀ e, pick key full basic dflt = Raise e → e = AttributeError) ∧
  (truthy (value_at full key) = true →
   pick key full basic dflt = Ok (value_at full key)).
Proof.
  assert (Hb : ∀ o k d,
    get (py_or o (VDict [])) k d
    = if not_record o then Raise AttributeError
      else Ok (match o with VDict m => dict_get m k d | _ => d end)).
  { intros o k d. unfold py_or, not_record.
    destruct o as [|b|z|f|s|l|m]; simpl; try done;
      try (by destruct (truthy _)); try (by destruct (negb _)).
    - by destruct b.
    - by destruct s.
    - by destruct l.
    - by destruct m. }
  assert (Hf : get (py_or full (VDict [])) key VNone
               = if not_record full then Raise AttributeError
                 else Ok (value_at full key)).
  { rewrite Hb. destruct (not_record full); [done|]. by destruct full. }
  unfold pick. rewrite Hf.
  destruct (not_record full) eqn:Hnf.
  - assert (value_at full key = VNone) as ->.
    { destruct full as [|b|z|f|s|l|m]; try done.
      unfold not_record in Hnf. simpl in Hnf. by rewrite andb_false_r in Hnf. }
    simpl. split; [|split]; [naive_solver|by intros e [= <-]|done].
  - rewrite bind_Ok_l. destruct (truthy (value_at full key)) eqn:Hv.
    + split; [|split]; [|done|done].
      split; [done|]. intros [?|[? _]]; done.
    + rewrite Hb. destruct (not_record basic).
      * split; [|split]; [naive_solver|by intros e [= <-]|done].
      * split; [|split]; [|done|done].
        split; [done|]. intros [?|[_ ?]]; done.
Qed.

Lemma pick_raises_witness :
  pick "title" (VDict [("title", VStr "Album A")]) (VInt 7) (VStr "")
  = Ok (VStr "Album A").
Proof.
  exact (proj2 (proj2 (pick_raises "title" (VDict [("title", VStr "Album A")])
                         (VInt 7) (VStr ""))) eq_refl).
Defined.

(** ** [join_names] and the catalogue numbers *)

Lemma strings_select_names key objs :
  strings (select key objs)
  = if named_ok key objs then Ok (names_of key objs) else Raise TypeError.
Proof.
  induction objs as [|o objs IH]; [done|].
  destruct o as [|b|z|f|s|l|d]; try exact IH.
  simpl. unfold dict_get. destruct (dict_lookup key d) as [v|]; simpl;
    [|exact IH].
  destruct v as [|b|z|f|s|l|d']; simpl; try exact IH.
  - destruct b; simpl; [done|exact IH].
  - destruct (negb (z =? 0)%Z); simpl; [done|exact IH].
  - destruct (negb (PrimFloat.eqb f PrimFloat.zero)); simpl; [done|exact IH].
  - destruct (Str.nonempty s); simpl; [|exact IH].
    rewrite IH. by destruct (named_ok key objs).
  - destruct l; simpl; [exact IH|done].
  - destruct d'; simpl; [exact IH|done].
Qed.

(** [join_names] gives the empty string for anything but a list; for a
    list, the names of its dictionaries that are non-empty strings, in
    order and joined by [|], other entries and falsy names being passed
    over; and it raises [TypeError] exactly when some dictionary has a
    truthy name that is not a string. *)
Theorem join_names_names (objs : value) :
  join_names objs
  = match objs with
    | VList l =>
        if named_ok "name" l then Ok (Str.join "|" (names_of "name" l))
        else Raise TypeError
    | _ => Ok ""
    end.
Proof.
  destruct objs as [|b|z|f|s|l|d]; try done.
  unfold join_names, join. rewrite strings_select_names.
  by destruct (named_ok "name" l).
Qed.

Example join_names_sample :
  join_names (VList [VDict [("name", VStr "Miles Davis")]; VNone;
                     VDict [("id", VInt 3)]; VDict [("name", VStr "")];
                     VDict [("name", VStr "Gil Evans")]])
  = Ok "Miles Davis|Gil Evans".
Proof. reflexivity. Qed.

Example join_names_number :
  join_names (VList [VDict [("name", VInt 5)]]) = Raise TypeError.
Proof. reflexivity. Qed.

(** ** [first_barcode] *)

Section Barcode.
Variable float_str : float → string.

Lemma first_barcode_loop_app l1 l2 :
  forallb stepped_over l1 = true →
  first_barcode_loop float_str (l1 ++ l2) = first_barcode_loop float_str l2.
Proof.
  induction l1 as [|o l1 IH]; simpl; [done|].
  intros [Ho Hl]%andb_true_iff.
  destruct o as [|b|z|f|s|l|d]; try by apply IH.
  simpl in Ho. destruct (dict_get d "type" (VStr "")); try done.
  simpl. apply negb_true_iff in Ho. rewrite Ho. by apply IH.
Qed.

(** The search of [first_barcode] ends at the first identifier it cannot
    step over.  If that is a barcode (its type compared in lower case),
    the result is its cleaned "value" (empty when it has none) and what
    follows is never looked at; if its "type" is not a string, the call
    raises [AttributeError]; and if every identifier is stepped over, the
    result is the empty string. *)
Theorem first_barcode_first (l1 l2 : list value) (o : value) :
  forallb stepped_over l1 = true →
  (first_barcode float_str (VList l1) = Ok "") ∧
  (∀ obj, o = VDict obj → is_barcode o = true →
     first_barcode float_str (VList (l1 ++ o :: l2))
     = Ok (clean_text float_str (dict_get obj "value" (VStr "")))) ∧
  (bad_type o = true →
     first_barcode float_str (VList (l1 ++ o :: l2)) = Raise AttributeError).
Proof.
  intros Hl1. split; [|split].
  - simpl. rewrite <- (app_nil_r l1). by rewrite first_barcode_loop_app.
  - intros obj -> Ho. simpl. rewrite first_barcode_loop_app by done.
    simpl in *. destruct (dict_get obj "type" (VStr "")); try done.
    simpl. by rewrite Ho.
  - intros Ho. simpl. rewrite first_barcode_loop_app by done.
    destruct o as [|b|z|f|s|l|d]; try done.
    simpl in *. by destruct (dict_get d "type" (VStr "")).
Qed.

(** Whatever [first_barcode] returns is a normalised string. *)
Theorem first_barcode_normalized (identifiers : value) (s : string) :
  first_barcode float_str identifiers = Ok s → Str.normalized s = true.
Proof.
  destruct identifiers as [|b|z|f|s'|l|d]; try (by intros [= <-]).
  simpl. induction l as [|o l IH]; simpl; [by intros [= <-]|].
  destruct o as [|b|z|f|s'|l'|d]; try done.
  intros H. apply bind_Ok in H as (t & _ & H).
  destruct (String.eqb t "barcode"); [|by apply IH].
  injection H as <-. apply clean_text_normalized.
Qed.

End Barcode.

Lemma first_barcode_first_witness :
  first_barcode Samples.float_str (VList Samples.identifiers) = Ok "7 24384".
Proof.
  exact (proj1 (proj2
    (first_barcode_first Samples.float_str
       [VDict [("type", VStr "Matrix / Runout"); ("value", VStr "A1")];
        VStr "stray"]
       [VDict [("type", VNone)]]
       (VDict [("type", VStr "BARCODE"); ("value", VStr " 7 24384 ")])
       eq_refl))
    _ eq_refl eq_refl).
Defined.

Lemma first_barcode_normalized_witness :
  Str.normalized "7 24384" = true.
Proof.
  exact (first_barcode_normalized Samples.float_str
           (VList Samples.identifiers) "7 24384" eq_refl).
Defined.

(** ** Pieces and bits are never empty *)

Lemma strip_good o s : strip o = Ok s → Str.trimmed s = true.
Proof.
  destruct o; try done. intros [= <-]. apply Trim.trimmed_strip.
Qed.

Lemma good_intro s :
  Str.nonempty s = true → Str.trimmed s = true → good s = true.
Proof. unfold good. by intros -> ->. Qed.

Lemma scan_descs_good ds bits bits' :
  scan_descs ds bits = Ok bits' →
  ∃ new, bits' = bits ++ new ∧ forallb good new = true.
Proof.
  revert bits. induction ds as [|d ds IH]; intros bits; simpl.
  - intros [= <-]. exists []. by rewrite app_nil_r.
  - intros H. apply bind_Ok in H as (s & Hs & H).
    apply strip_good in Hs. apply IH in H as (new & -> & Hnew).
    destruct (sniff s) eqn:Hsniff; [|by exists new].
    exists (s :: new). split; [by rewrite <- app_assoc|].
    simpl. rewrite Hnew, andb_true_r. apply good_intro; [|done].
    unfold sniff in Hsniff. by apply andb_true_iff in Hsniff as [? _].
Qed.

Lemma build_piece_trimmed joined text qty :
  Str.trimmed (build_piece joined text qty) = true.
Proof.
  unfold build_piece.
  destruct (Str.nonempty text), (Str.nonempty qty); apply Trim.trimmed_strip.
Qed.

Lemma format_entry_good fmt parts bits parts' bits' :
  format_entry fmt (parts, bits) = Ok (parts', bits') →
  ∃ new_parts new_bits,
    parts' = parts ++ new_parts ∧ bits' = bits ++ new_bits ∧
    forallb good new_parts = true ∧ forallb good new_bits = true ∧
    (length new_parts ≤ 1)%nat.
Proof.
  unfold format_entry. intros H.
  apply bind_Ok in H as (name & _ & H).
  apply bind_Ok in H as (qty & _ & H).
  apply bind_Ok in H as (text & Htext & H). apply strip_good in Htext.
  apply bind_Ok in H as (ds & _ & H).
  apply bind_Ok in H as (bits1 & Hscan & H).
  apply scan_descs_good in Hscan as (new & -> & Hnew).
  apply bind_Ok in H as (ds' & _ & H).
  apply bind_Ok in H as (joined & _ & H). injection H as <- <-.
  pose proof (build_piece_trimmed joined text qty) as Hp.
  exists (pieces (build_piece joined text qty)),
         ((if Str.nonempty text then [text] else []) ++ new).
  split; [|split; [|split; [|split]]].
  - unfold pieces. destruct (Str.nonempty _); [done|by rewrite app_nil_r].
  - destruct (Str.nonempty text); [by rewrite <- app_assoc|done].
  - unfold pieces. destruct (Str.nonempty _) eqn:Hne; [|done].
    simpl. by rewrite (good_intro _ Hne Hp).
  - destruct (Str.nonempty text) eqn:Hne; [|done].
    simpl. by rewrite (good_intro _ Hne Htext).
  - unfold pieces. destruct (Str.nonempty _); simpl; lia.
Qed.

Lemma formats_loop_good l parts bits parts' bits' :
  formats_loop l (parts, bits) = Ok (parts', bits') →
  ∃ new_parts new_bits,
    parts' = parts ++ new_parts ∧ bits' = bits ++ new_bits ∧
    forallb good new_parts = true ∧ forallb good new_bits = true ∧
    (length new_parts ≤ length (filter (λ e, is_dict e = true) l))%nat.
Proof.
  revert parts bits. induction l as [|e l IH]; intros parts bits.
  - intros [= <- <-]. exists [], []. by rewrite !app_nil_r.
  - rewrite filter_cons.
    destruct e as [|b|z|f|s|l'|fmt]; simpl; try apply IH.
    intros H. apply bind_Ok in H as ([parts1 bits1] & Hentry & H).
    apply format_entry_good in Hentry
      as (np1 & nb1 & -> & -> & Hp1 & Hb1 & Hlen1).
    apply IH in H as (np2 & nb2 & -> & -> & Hp2 & Hb2 & Hlen2).
    exists (np1 ++ np2), (nb1 ++ nb2). rewrite <- !app_assoc.
    split; [done|]. split; [done|].
    rewrite !forallb_app, Hp1, Hp2, Hb1, Hb2, length_app.
    repeat split; try done. lia.
Qed.

(** The loop body returns on well-typed entries only. *)
Lemma strip_or_inv v s :
  strip (py_or v (VStr "")) = Ok s → text_like v = true.
Proof.
  unfold py_or. destruct (truthy v) eqn:Htr.
  - by destruct v.
  - intros _. destruct v as [|b|z|f|s'|l|d]; simpl in *; by rewrite ?Htr.
Qed.

Lemma scan_descs_inv ds bits bits' :
  scan_descs ds bits = Ok bits' → forallb text_like ds = true.
Proof.
  revert bits. induction ds as [|d ds IH]; intros bits; simpl; [done|].
  intros H. apply bind_Ok in H as (s & Hs & H).
  rewrite (strip_or_inv _ _ Hs). simpl. by eapply IH.
Qed.

Lemma iter_descs_inv v ds :
  iter (py_or v (VList [])) = Ok ds →
  forallb text_like ds = true → descs_ok v = true.
Proof.
  unfold py_or. destruct (truthy v) eqn:Htr.
  - destruct v as [|b|z|f|s|l|d]; simpl; try done. by intros [= <-].
  - intros _ _. destruct v as [|b|z|f|s|l|d]; simpl in *;
      rewrite ?Htr; try done. by destruct l.
Qed.

Lemma format_entry_inv fmt st st' :
  format_entry fmt st = Ok st' → entry_ok fmt = true.
Proof.
  destruct st as [parts bits]. unfold format_entry, entry_ok. intros H.
  apply bind_Ok in H as (name & Hn & H).
  apply bind_Ok in H as (qty & Hq & H).
  apply bind_Ok in H as (text & Ht & H).
  apply bind_Ok in H as (ds & Hds & H).
  apply bind_Ok in H as (bits1 & Hscan & _).
  rewrite (strip_or_inv _ _ Hn), (strip_or_inv _ _ Hq), (strip_or_inv _ _ Ht).
  simpl. eapply iter_descs_inv; [exact Hds|]. by eapply scan_descs_inv.
Qed.

Lemma formats_loop_inv l st st' :
  formats_loop l st = Ok st' → formats_ok l = true.
Proof.
  revert st. induction l as [|e l IH]; intros st; [done|].
  destruct e as [|b|z|f|s|l'|fmt]; simpl; try apply IH.
  intros H. apply bind_Ok in H as (st1 & Hentry & H).
  rewrite (format_entry_inv _ _ _ Hentry). simpl. by eapply IH.
Qed.

Lemma formats_loop_closed l parts bits :
  formats_ok l = true →
  formats_loop l (parts, bits)
  = Ok (parts ++ concat (entry_piece <$> l),
        bits ++ concat (entry_variant_bits <$> l)).
Proof.
  revert parts bits. induction l as [|e l IH]; intros parts bits Hl.
  - simpl. by rewrite !app_nil_r.
  - apply andb_true_iff in Hl as [He Hl]. rewrite !fmap_cons.
    destruct e as [|b|z|f|s|l'|fmt]; try by apply IH.
    change (formats_loop (VDict fmt :: l) (parts, bits))
      with (format_entry fmt (parts, bits) ≫= formats_loop l).
    rewrite (format_entry_ok _ _ _ He), bind_Ok_l, (IH _ _ Hl).
    cbn [concat entry_piece entry_variant_bits].
    by rewrite <- !app_assoc.
Qed.

Lemma summary_piece_trimmed name text qty descs :
  Str.trimmed (summary_piece name text qty descs) = true.
Proof.
  unfold summary_piece.
  destruct (Str.nonempty text), (Str.nonempty qty); apply Trim.trimmed_strip.
Qed.

(** An entry contributes at most one piece, a good one; an entry that is
    not a dictionary contributes none. *)
Lemma entry_piece_good e :
  forallb good (entry_piece e) = true
  ∧ (length (entry_piece e) ≤ 1)%nat
  ∧ (is_dict e = false → entry_piece e = []).
Proof.
  destruct e as [|b|z|f|s|l|fmt]; try (repeat split; simpl; done || lia).
  cbn [entry_piece]. unfold pieces.
  destruct (Str.nonempty _) eqn:Hne; simpl; [|repeat split; done || lia].
  rewrite (good_intro _ Hne (summary_piece_trimmed _ _ _ _)).
  repeat split; done || lia.
Qed.

Section Pieces.
Variable float_str : float → string.

(** [summarize_formats] returns on a list only if every dictionary of the
    list is well typed, and the format summary is then the [|]-join, in
    the order of the list, of the pieces of its entries: at most one piece
    for a dictionary and none for anything else, each piece non-empty and
    without white space at either end. *)
Theorem format_summary_pieces (l : list value) (fmt_summary variant : string) :
  summarize_formats float_str (VList l) = Ok (fmt_summary, variant) →
  formats_ok l = true ∧
  fmt_summary = Str.join "|" (concat (entry_piece <$> l)) ∧
  Forall (λ e, forallb good (entry_piece e) = true
               ∧ (length (entry_piece e) ≤ 1)%nat
               ∧ (is_dict e = false → entry_piece e = [])) l.
Proof.
  unfold summarize_formats. intros H.
  apply bind_Ok in H as ([parts bits] & Hloop & H). injection H as <- _.
  pose proof (formats_loop_inv _ _ _ Hloop) as Hok.
  rewrite (formats_loop_closed _ [] [] Hok) in Hloop. injection Hloop as <- _.
  split; [done|]. split; [done|].
  apply Forall_forall. intros e _. apply entry_piece_good.
Qed.

(** On a well-typed list of formats the format summary is the [|]-join
    of the pieces of the entries, in order, and the variant is
    [clean_text] of the [|]-join of their variant bits (the trimmed text
    of an entry, then its trimmed descriptions that carry a keyword), with
    repeated bits dropped after their first occurrence. *)
Theorem summarize_formats_closed (l : list value) :
  formats_ok l = true →
  summarize_formats float_str (VList l)
  = Ok (Str.join "|" (concat (entry_piece <$> l)),
        clean_text float_str
          (VStr (Str.join "|"
                   (first_occurrences (concat (entry_variant_bits <$> l)))))).
Proof.
  intros Hl. apply summarize_formats_list.
  by rewrite (formats_loop_closed _ [] [] Hl).
Qed.

End Pieces.

Lemma format_summary_pieces_witness :
  formats_ok Samples.red_limited_red = true
  ∧ "Vinyl LP Limited (Red)|Vinyl (Red)"
    = Str.join "|" (concat (entry_piece <$> Samples.red_limited_red)).
Proof.
  destruct (format_summary_pieces Samples.float_str Samples.red_limited_red
              "Vinyl LP Limited (Red)|Vinyl (Red)" "Red|Limited" eq_refl)
    as (Hok & Hsummary & _).
  split; [exact Hok|exact Hsummary].
Defined.

(** A piece may hold the separator itself: the summary cannot always be
    taken apart into its pieces again. *)
Example pieces_with_separator :
  summarize_formats Samples.float_str
    (VList [VDict [("name", VStr "a||b")]; VDict [("name", VStr "|c")]])
  = Ok ("a||b||c", "").
Proof. reflexivity. Qed.

Lemma summarize_formats_closed_witness :
  summarize_formats Samples.float_str (VList Samples.red_limited_red)
  = Ok ("Vinyl LP Limited (Red)|Vinyl (Red)", "Red|Limited").
Proof.
  exact (summarize_formats_closed Samples.float_str Samples.red_limited_red
           eq_refl).
Defined.

(** ** The keyword test *)

Module Sub.
Import Str.

Lemma append_nil (b : string) : "" +:+ b = b.
Proof. reflexivity. Qed.

Lemma append_cons x (a b : string) : String x a +:+ b = String x (a +:+ b).
Proof. reflexivity. Qed.

Lemma append_assoc (a b c : string) : (a +:+ b) +:+ c = a +:+ (b +:+ c).
Proof.
  induction a as [|x a IH]; [done|]. by rewrite !append_cons, IH.
Qed.

Lemma prefix_iff k s : String.prefix k s = true ↔ ∃ b, s = k +:+ b.
Proof.
  revert s. induction k as [|x k IH]; intros s.
  - split; [intros _; exists s; reflexivity|intros _; by destruct s].
  - destruct s as [|y s].
    + split; [done|]. intros [b Hb]. rewrite append_cons in Hb. done.
    + simpl. destruct (Ascii.ascii_dec x y) as [->|Hxy].
      * rewrite IH. split; intros [b Hb]; exists b.
        -- by rewrite append_cons, <- Hb.
        -- rewrite append_cons in Hb. congruence.
      * split; [done|]. intros [b Hb]. rewrite append_cons in Hb.
        congruence.
Qed.

(** [contains k s] says that [k] is a substring of [s]. *)
Lemma contains_iff k s : contains k s = true ↔ ∃ a b, s = a +:+ k +:+ b.
Proof.
  induction s as [|y s IH]; cbn [contains].
  - rewrite orb_false_r, prefix_iff. split.
    + intros [b Hb]. exists "", b. by rewrite append_nil.
    + intros (a & b & Hab). destruct a as [|x a].
      * exists b. by rewrite append_nil in Hab.
      * rewrite append_cons in Hab. done.
  - rewrite orb_true_iff, prefix_iff, IH. split.
    + intros [[b Hb]|(a & b & Hab)].
      * exists "", b. by rewrite append_nil.
      * exists (String y a), b. by rewrite append_cons, <- Hab.
    + intros (a & b & Hab). destruct a as [|x a].
      * left. exists b. by rewrite append_nil in Hab.
      * right. rewrite append_cons in Hab. injection Hab as _ Hab.
        by exists a, b.
Qed.

Lemma contains_trans k m s :
  contains k m = true → contains m s = true → contains k s = true.
Proof.
  rewrite !contains_iff. intros (a & b & ->) (a' & b' & ->).
  exists (a' +:+ a), (b +:+ b'). by rewrite !append_assoc.
Qed.

End Sub.

Lemma sniff_short d :
  sniff d
  = Str.nonempty d
    && existsb (λ k, Str.contains k (Str.lower d)) SHORT_KEYWORDS.
Proof.
  unfold sniff. f_equal. simpl.
  destruct (Str.contains "red" (Str.lower d)) eqn:Hred; simpl.
  - by rewrite orb_true_r.
  - assert (Hc : Str.contains "colored" (Str.lower d) = false).
    { destruct (Str.contains "colored" (Str.lower d)) eqn:Hc; [|done].
      by rewrite (Sub.contains_trans "red" "colored" _ eq_refl Hc) in Hred. }
    assert (Hr : Str.contains "remastered" (Str.lower d) = false).
    { destruct (Str.contains "remastered" (Str.lower d)) eqn:Hr; [|done].
      by rewrite (Sub.contains_trans "red" "remastered" _ eq_refl Hr) in Hred. }
    rewrite Hc, Hr. simpl. by rewrite !orb_false_r.
Qed.

(** The keyword test looks for substrings of the lower-cased description:
    a description that has the letters [red] anywhere, in any letter case,
    passes, so the keywords [colored] and [remastered] add nothing to the
    list. *)
Theorem sniff_red (d : string) :
  ((∃ a b, Str.lower d = a +:+ "red" +:+ b) → sniff d = true) ∧
  sniff d
  = Str.nonempty d
    && existsb (λ k, Str.contains k (Str.lower d)) SHORT_KEYWORDS.
Proof.
  split; [|apply sniff_short].
  intros Hred. apply Sub.contains_iff in Hred. rewrite sniff_short.
  simpl. rewrite Hred. simpl. rewrite andb_true_r.
  destruct d; [done|done].
Qed.

Lemma sniff_red_witness : sniff "Hundred Years" = true.
Proof.
  apply (proj1 (sniff_red "Hundred Years")).
  by exists "hund", " years".
Defined.

(** ** Runs over a split listing *)

Section Split.
Variable float_str : float → string.

Lemma fetch_loop_app include client l1 l2 acc :
  fetch_loop float_str include client (l1 ++ l2) acc
  = fetch_loop float_str include client l1 acc
    ≫= fetch_loop float_str include client l2.
Proof.
  revert acc. induction l1 as [|it l1 IH]; intros acc; [done|].
  simpl. destruct (fetch_row float_str include client it) as [o|e]; [|done].
  rewrite !bind_Ok_l. apply IH.
Qed.

Lemma fetch_loop_acc include client l acc :
  fetch_loop float_str include client l acc
  = fetch_loop float_str include client l [] ≫= λ rows, Ok (acc ++ rows).
Proof.
  revert acc. induction l as [|it l IH]; intros acc; simpl.
  - by rewrite app_nil_r.
  - destruct (fetch_row float_str include client it) as [[r|]|e];
      [| |done]; rewrite !bind_Ok_l.
    + rewrite (IH (acc ++ [r])), (IH [r]).
      destruct (fetch_loop float_str include client l []) as [rows|e];
        [|done].
      rewrite !bind_Ok_l. by rewrite <- app_assoc.
    + apply IH.
Qed.

(** The rows of a listing in two parts: if the run over the first part
    returns, the run over the whole listing gives those rows followed by
    the rows of the second part; and an item whose round raises ends the
    run with that exception, the rows collected before it included. *)
Theorem fetch_rows_split (include_full_release : bool)
    (client : value → reply) (l1 l2 : list item) (rows1 : list row) :
  fetch_rows_with float_str include_full_release client l1 = Ok rows1 →
  (∀ rows2,
     fetch_rows_with float_str include_full_release client l2 = Ok rows2 →
     fetch_rows_with float_str include_full_release client (l1 ++ l2)
     = Ok (rows1 ++ rows2)) ∧
  (∀ it e,
     fetch_row float_str include_full_release client it = Raise e →
     fetch_rows_with float_str include_full_release client (l1 ++ it :: l2)
     = Raise e).
Proof.
  unfold fetch_rows_with. intros H1. split.
  - intros rows2 H2. rewrite fetch_loop_app, H1, bind_Ok_l.
    by rewrite fetch_loop_acc, H2.
  - intros it e He. rewrite fetch_loop_app, H1, bind_Ok_l. simpl.
    by rewrite He.
Qed.

(** ** The release id of a row *)

Lemma item_rel_id_identity it rel_id :
  item_rel_id it = Ok rel_id → rel_id = identity it.
Proof.
  unfold item_rel_id, identity, py_or. intros H.
  apply bind_Ok in H as (basic & Hb & H).
  destruct (truthy (default VNone (item_release_id it))).
  - by injection H as <-.
  - apply item_basic_inv in Hb as [->|[_ Hb]];
      [|by rewrite Hb in H].
    simpl in H. by injection H as <-.
Qed.

Lemma fetch_row_release_id include client it r :
  fetch_row float_str include client it = Ok (Some r) →
  release_id r = identity it ∧ truthy (release_id r) = true.
Proof.
  unfold fetch_row. intros H.
  apply bind_Ok in H as (basic & _ & H).
  apply bind_Ok in H as (rel_id & Hid & H).
  apply item_rel_id_identity in Hid as ->.
  destruct (truthy (identity it)) eqn:Htr; [simpl in H|done].
  apply bind_Ok in H as (full & _ & H).
  apply bind_Ok in H as (r' & Hr' & H). injection H as <-.
  apply assemble_row_fields in Hr' as (-> & _). done.
Qed.

(** In a run that returns, every row carries a truthy release id: the
    item's own when that is truthy, otherwise the "id" of its basic
    record; row by row, for the items that were not skipped. *)
Theorem rows_release_id (include_full_release : bool)
    (client : value → reply) (releases : list item) (rows : list row) :
  fetch_rows_with float_str include_full_release client releases = Ok rows →
  Forall2 (λ it r, release_id r = identity it)
    (filter (λ it, has_identity it = true) releases) rows ∧
  Forall (λ r, truthy (release_id r) = true) rows.
Proof.
  intros Hrun. unfold fetch_rows_with in Hrun.
  apply fetch_loop_Forall2 in Hrun as (new & -> & Hnew). simpl. split.
  - eapply Forall2_impl; [exact Hnew|].
    intros it r Hr. by apply fetch_row_release_id in Hr as [? _].
  - eapply Forall2_Forall_r; [exact Hnew|].
    apply Forall_forall. intros it _ r Hr.
    by apply fetch_row_release_id in Hr as [_ ?].
Qed.

End Split.

Lemma fetch_rows_split_witness :
  fetch_rows_with Samples.float_str true (λ _, Failure)
    ([Samples.item_D] ++ Samples.item_A :: [Samples.item_B])
  = Raise ClientError.
Proof.
  exact (proj2 (fetch_rows_split Samples.float_str true (λ _, Failure)
                  [Samples.item_D] [Samples.item_B] [] eq_refl)
           Samples.item_A ClientError eq_refl).
Defined.

Lemma rows_release_id_witness :
  ∃ rows,
    fetch_rows_with Samples.float_str true Samples.client
      [Samples.item_A; Samples.item_D; Samples.item_B] = Ok rows
    ∧ Forall (λ r, truthy (release_id r) = true) rows.
Proof.
  eexists. split; [vm_compute; reflexivity|].
  eapply (rows_release_id Samples.float_str true Samples.client
            [Samples.item_A; Samples.item_D; Samples.item_B]).
  vm_compute; reflexivity.
Defined.

(** ** What a row depends on *)

Section Keys.
Variable float_str : float → string.




(** ** Names, catalogue numbers, genres and styles of a row *)

Lemma strings_Ok l ss : strings l = Ok ss → l = VStr <$> ss.
Proof.
  revert ss. induction l as [|v l IH]; intros ss; simpl.
  - by intros [= <-].
  - destruct v as [|b|z|f|s|l'|d]; try done.
    intros H. apply bind_Ok in H as (ss' & Hss' & H). injection H as <-.
    by rewrite (IH _ Hss').
Qed.

Lemma join_select_Ok key objs s :
  join "|" (select key objs) = Ok s → s = Str.join "|" (names_of key objs).
Proof.
  unfold join. rewrite strings_select_names.
  destruct (named_ok key objs); [|done]. rewrite bind_Ok_l. by intros [= <-].
Qed.

Lemma iter_or_list l : iter (py_or (VList l) (VList [])) = Ok l.
Proof. by destruct l. Qed.

Lemma iter_or_str s :
  iter (py_or (VStr s) (VList [])) = Ok (VStr <$> Str.chars s).
Proof. by destruct s. Qed.

Lemma fmap_VStr_inj (l1 l2 : list string) :
  VStr <$> l1 = VStr <$> l2 → l1 = l2.
Proof.
  revert l2. induction l1 as [|x l1 IH]; intros [|y l2]; try done.
  rewrite !fmap_cons. intros [= -> H]. by rewrite (IH _ H).
Qed.

(** In a row built from two dictionaries, when the "artists" and "labels"
    that [pick] resolved are lists: artist and label are the cleaned
    [|]-joins of the non-empty names of their dictionaries, and catno is
    the [|]-join of the non-empty catalogue numbers of the labels, left as
    joined.  A label without a catalogue number leaves no gap, so the
    positions in catno need not match those in label. *)
Theorem row_names (rel_id ci : value) (full basic : dict) (r : row)
    (artists labels : list value) :
  assemble_row float_str rel_id ci (VDict basic) (VDict full) = Ok r →
  resolve "artists" full basic (VList []) = VList artists →
  resolve "labels" full basic (VList []) = VList labels →
  artist r
  = VStr (clean_text float_str (VStr (Str.join "|" (names_of "name" artists))))
  ∧ label r
    = VStr (clean_text float_str (VStr (Str.join "|" (names_of "name" labels))))
  ∧ catno r = VStr (Str.join "|" (names_of "catno" labels)).
Proof.
  intros H Ha Hl. apply assemble_row_inv in H.
  destruct H as (fs & v & artist & date & label & ls & catno & gs & genres
                 & ss & styles & _ & Hartist & _ & Hlabel & Hls & Hcatno
                 & _ & _ & _ & _ & ->).
  rewrite Ha in Hartist. rewrite Hl in Hlabel, Hls.
  rewrite iter_or_list in Hls. injection Hls as <-.
  apply join_select_Ok in Hartist as ->, Hlabel as ->, Hcatno as ->.
  done.
Qed.

(** A "genres" or "styles" value that is a list comes out as the plain
    [|]-join of its elements, all of them strings; one that is a string
    is taken apart into its characters. *)
Theorem row_genres (rel_id ci : value) (full basic : dict) (r : row) :
  assemble_row float_str rel_id ci (VDict basic) (VDict full) = Ok r →
  (∀ l, resolve "genres" full basic (VList []) = VList l →
        ∃ ss, l = VStr <$> ss ∧ genres r = VStr (Str.join "|" ss)) ∧
  (∀ l, resolve "styles" full basic (VList []) = VList l →
        ∃ ss, l = VStr <$> ss ∧ styles r = VStr (Str.join "|" ss)) ∧
  (∀ s, resolve "genres" full basic (VList []) = VStr s →
        genres r = VStr (Str.join "|" (Str.chars s))).
Proof.
  intros H. apply assemble_row_inv in H.
  destruct H as (fs & v & artist & date & label & ls & catno & gs & genres
                 & ss & styles & _ & _ & _ & _ & _ & _
                 & Hgs & Hgenres & Hss & Hstyles & ->).
  unfold join in Hgenres, Hstyles.
  apply bind_Ok in Hgenres as (gl & Hgl & [= <-]).
  apply bind_Ok in Hstyles as (sl & Hsl & [= <-]).
  apply strings_Ok in Hgl, Hsl. split; [|split].
  - intros l Hl. rewrite Hl, iter_or_list in Hgs. injection Hgs as <-.
    by exists gl.
  - intros l Hl. rewrite Hl, iter_or_list in Hss. injection Hss as <-.
    by exists sl.
  - intros s Hs. rewrite Hs, iter_or_str in Hgs. injection Hgs as <-.
    apply fmap_VStr_inj in Hgl as ->. done.
Qed.

End Keys.


Lemma row_names_witness :
  ∃ r, assemble_row Samples.float_str (VInt 5) (VDict [])
         (VDict Samples.basic_E) (VDict []) = Ok r
       ∧ artist r = VStr "Nina Simone"
       ∧ label r = VStr "Philips|Verve"
       ∧ catno r = VStr "V6-8".
Proof.
  eexists. split; [vm_compute; reflexivity|].
  exact (row_names Samples.float_str (VInt 5) (VDict []) [] Samples.basic_E _
           [VDict [("name", VStr "Nina Simone")]]
           [VDict [("name", VStr "Philips")];
            VDict [("name", VStr "Verve"); ("catno", VStr "V6-8")]]
           eq_refl eq_refl eq_refl).
Defined.

Lemma row_genres_witness :
  ∃ r, assemble_row Samples.float_str (VInt 5) (VDict [])
         (VDict Samples.basic_E) (VDict []) = Ok r
       ∧ genres r = VStr "J|a|z|z".
Proof.
  eexists. split; [vm_compute; reflexivity|].
  exact (proj2 (proj2 (row_genres Samples.float_str (VInt 5) (VDict []) []
                         Samples.basic_E _ eq_refl)) "Jazz" eq_refl).
Defined.

(** ** The text fields of a row *)

Lemma lacks_get d key : lacks d key = true → dict_get d key VNone = VNone.
Proof. unfold lacks. by destruct (dict_get d key VNone). Qed.

(** With nothing under the key in either record, [pick] gives [None] or
    the default. *)
Lemma resolve_absent key full basic dflt :
  absent key full basic = true →
  resolve key full basic dflt = VNone ∨ resolve key full basic dflt = dflt.
Proof.
  unfold absent, lacks, resolve, dict_get.
  intros [Hf Hb]%andb_true_iff.
  assert (Hbasic : match dict_lookup key basic with
                   | Some w => w
                   | None => dflt
                   end = VNone
                   ∨ match dict_lookup key basic with
                     | Some w => w
                     | None => dflt
                     end = dflt).
  { destruct (dict_lookup key basic) as [w|]; [left|by right].
    simpl in Hb. by destruct w. }
  destruct (dict_lookup key full) as [v|]; [|done].
  simpl in Hf. by destruct v.
Qed.

Lemma released_value_absent full basic :
  absent "released" full basic = true →
  lacks basic "released_formatted" = true →
  lacks basic "year" = true →
  released_value full basic = VNone.
Proof.
  unfold absent. intros [Hf Hb]%andb_true_iff Hrf Hy.
  apply lacks_get in Hf, Hb, Hrf, Hy.
  unfold released_value. rewrite Hf, Hrf, Hy. simpl.
  unfold dict_get in Hb. by destruct (dict_lookup "released" basic).
Qed.

Lemma fmap_text_of (ss : list string) : text_of <$> (VStr <$> ss) = ss.
Proof. induction ss as [|s ss IH]; [done|]. by rewrite !fmap_cons, IH. Qed.

Lemma forallb_is_text (ss : list string) : forallb is_text (VStr <$> ss) = true.
Proof. by induction ss. Qed.

Lemma clean_texts (l : list value) :
  forallb is_clean l = true → forallb is_text l = true.
Proof.
  induction l as [|x l IH]; simpl; [done|].
  intros [Hx Hl]%andb_true_iff. rewrite (IH Hl), andb_true_r. by destruct x.
Qed.

Lemma iter_or_dict (d : dict) :
  iter (py_or (VDict d) (VList [])) = Ok (VStr <$> (fst <$> d)).
Proof.
  destruct d as [|kv d]; [done|].
  unfold py_or. cbn [truthy iter]. by rewrite <- list_fmap_compose.
Qed.

(** What [join_names] has returned. *)
Lemma join_names_inv v s :
  join_names v = Ok s → s = joined_names "name" v ∧ names_ok v = true.
Proof.
  destruct v as [|b|z|f|s'|l|d]; try (by intros [= <-]).
  unfold join_names, join, joined_names, names_ok, entries.
  rewrite strings_select_names.
  destruct (named_ok "name" l); [|done]. rewrite bind_Ok_l. by intros [= <-].
Qed.

(** What the walk for the catalogue numbers has returned. *)
Lemma catno_inv v ls s :
  names_ok v = true →
  iter (py_or v (VList [])) = Ok ls →
  join "|" (select "catno" ls) = Ok s →
  s = joined_names "catno" v ∧ labels_ok v = true.
Proof.
  intros Hn. destruct v as [|b|z|f|s'|l|d].
  - intros [= <-] [= <-]. done.
  - destruct b; [done|]. intros [= <-] [= <-]. done.
  - unfold py_or. simpl. destruct (negb (z =? 0)%Z) eqn:Hz; [done|].
    intros [= <-] [= <-]. done.
  - unfold py_or. simpl.
    destruct (negb (PrimFloat.eqb f PrimFloat.zero)) eqn:Hf; [done|].
    intros [= <-] [= <-]. done.
  - rewrite iter_or_str. intros [= <-].
    rewrite select_not_dicts by (apply Forall_fmap, Forall_true; done).
    by intros [= <-].
  - rewrite iter_or_list. intros [= <-]. unfold join.
    rewrite strings_select_names. simpl in Hn. simpl. rewrite Hn.
    destruct (named_ok "catno" l); [|done]. rewrite bind_Ok_l.
    by intros [= <-].
  - rewrite iter_or_dict. intros [= <-].
    rewrite select_not_dicts by (apply Forall_fmap, Forall_true; done).
    by intros [= <-].
Qed.

(** What a plain [|]-join of [v or []] has returned. *)
Lemma joined_inv v gs s :
  iter (py_or v (VList [])) = Ok gs →
  join "|" gs = Ok s →
  s = joined_elements v ∧ strs_ok v = true.
Proof.
  intros Hgs H. unfold join in H.
  apply bind_Ok in H as (ss & Hss & [= <-]). apply strings_Ok in Hss.
  subst gs. unfold joined_elements, elements.
  destruct v as [|b|z|f|s'|l|d].
  - injection Hgs as Hgs. by destruct ss.
  - destruct b; [done|]. injection Hgs as Hgs. by destruct ss.
  - unfold py_or in Hgs. simpl in *.
    destruct (negb (z =? 0)%Z) eqn:Hz; [done|].
    injection Hgs as Hgs. by destruct ss.
  - unfold py_or in Hgs. simpl in *.
    destruct (negb (PrimFloat.eqb f PrimFloat.zero)) eqn:Hf; [done|].
    injection Hgs as Hgs. by destruct ss.
  - rewrite iter_or_str in Hgs. injection Hgs as Hgs.
    apply fmap_VStr_inj in Hgs as <-. done.
  - rewrite iter_or_list in Hgs. injection Hgs as ->.
    simpl. by rewrite fmap_text_of, forallb_is_text.
  - rewrite iter_or_dict in Hgs. injection Hgs as Hgs.
    apply fmap_VStr_inj in Hgs as <-. done.
Qed.

Section TextFields.
Variable float_str : float → string.

Lemma clean_text_blank : clean_text float_str (VStr "") = "".
Proof. reflexivity. Qed.

(** What [summarize_formats] has returned. *)
Lemma summarize_formats_inv v fmt_summary variant :
  summarize_formats float_str v = Ok (fmt_summary, variant) →
  fmt_summary = joined_pieces v
  ∧ variant = clean_text float_str (VStr (joined_bits v))
  ∧ formats_value_ok v = true.
Proof.
  destruct v as [|b|z|f|s|l|d]; try (by intros [= <- <-]).
  intros H. pose proof H as H'. unfold summarize_formats in H'.
  apply bind_Ok in H' as ([parts bits] & Hloop & _).
  pose proof (formats_loop_inv _ _ _ Hloop) as Hok.
  pose proof (formats_loop_closed _ [] [] Hok) as Hclosed.
  rewrite (summarize_formats_list float_str _ _ _ Hclosed) in H.
  by injection H as <- <-.
Qed.

(** The records the row assembly returns on are dictionaries. *)
Lemma assemble_row_records rel_id ci basic full r :
  assemble_row float_str rel_id ci basic full = Ok r →
  is_dict ci = true ∧ is_dict basic = true
  ∧ is_dict (py_or full (VDict [])) = true.
Proof.
  unfold assemble_row. intros H.
  repeat (let x := fresh "x" in
          let Hx := fresh "Hx" in
          apply bind_Ok in H as (x & Hx & H); try destruct x as [? ?]).
  repeat match goal with
         | H : get ?o _ _ = Ok _ |- _ =>
             assert (is_dict o = true) by (by destruct o); clear H
         end.
  done.
Qed.

Lemma fetch_full_inv include client rel_id full :
  fetch_full include client rel_id = Ok full →
  is_dict (py_or full (VDict [])) = true →
  ∃ d, full = VDict d ∧ full_record include client rel_id = Some d.
Proof.
  unfold fetch_full, full_record. destruct include; [|intros [= <-]; by eexists].
  destruct (client rel_id) as [data|msg|]; [| |done].
  - intros [= <-]. unfold py_or at 2. unfold py_or.
    destruct (truthy data) eqn:Htr.
    + rewrite Htr. destruct data as [| | | | | |d]; try done. by exists d.
    + simpl. intros _. exists [].
      by destruct data as [| | | | | |[|]].
  - intros [= <-]. by eexists.
Qed.

(** What the round of an item that emits a row has assembled it from. *)
Lemma fetch_row_inv include client it r :
  fetch_row float_str include client it = Ok (Some r) →
  ∃ ci full,
    item_ci it = VDict ci
    ∧ full_record include client (identity it) = Some full
    ∧ assemble_row float_str (identity it) (VDict ci)
        (VDict (basic_record it)) (VDict full) = Ok r.
Proof.
  unfold fetch_row. intros H.
  apply bind_Ok in H as (basic & Hb & H).
  apply bind_Ok in H as (rel_id & Hid & H).
  apply item_rel_id_identity in Hid as ->.
  destruct (truthy (identity it)); [simpl in H|done].
  apply bind_Ok in H as (full & Hfull & H).
  apply bind_Ok in H as (r' & Hr' & H). injection H as ->.
  destruct (assemble_row_records _ _ _ _ _ Hr') as (Hci & Hbasic & Hf).
  destruct (fetch_full_inv _ _ _ _ Hfull Hf) as (d & -> & Hd).
  destruct (item_ci it) as [| | | | | |ci] eqn:Eci; try done.
  exists ci, d. split; [done|]. split; [done|].
  apply item_basic_inv in Hb as [->|[_ Hraise]]; [done|].
  by destruct basic.
Qed.

(** C3 (as the code has it). Every row of a run that returns was built
    for an item of the listing from its data, its basic record and the
    full record of its release, and in it: artist, title, date_added,
    variant, release_date, country and label are what [clean_text] made of
    the resolved values, hence single-line, normalised strings; format,
    catno, genres and styles are the bare [|]-joins of their elements (the
    summary pieces, the non-empty catalogue numbers of the labels, the
    elements of the genres and of the styles), not passed through
    [clean_text]; these values are well typed.  None of the eleven is
    [None], and a field for which neither record has a value (the key
    absent, or [None] under it) is the empty string. *)
Theorem text_fields_normalized (include_full_release : bool)
    (client : value → reply) (releases : list item) (rows : list row)
    (r : row) :
  fetch_rows_with float_str include_full_release client releases = Ok rows →
  r ∈ rows →
  ∃ (it : item) (ci full : dict),
    it ∈ releases ∧ item_ci it = VDict ci ∧
    full_record include_full_release client (identity it) = Some full ∧
    let basic := basic_record it in
    let found key := resolve key full basic (VList []) in
    (artist r
     = VStr (clean_text float_str (VStr (joined_names "name" (found "artists"))))
     ∧ title r
       = VStr (clean_text float_str (resolve "title" full basic (VStr "")))
     ∧ date_added r
       = VStr (clean_text float_str (dict_get ci "date_added" VNone))
     ∧ variant r
       = VStr (clean_text float_str (VStr (joined_bits (found "formats"))))
     ∧ release_date r
       = VStr (clean_text float_str (released_value full basic))
     ∧ country r
       = VStr (clean_text float_str (resolve "country" full basic (VStr "")))
     ∧ label r
       = VStr (clean_text float_str (VStr (joined_names "name" (found "labels"))))
     ∧ forallb is_clean (cleaned_fields r) = true) ∧
    (format r = VStr (joined_pieces (found "formats"))
     ∧ catno r = VStr (joined_names "catno" (found "labels"))
     ∧ genres r = VStr (joined_elements (found "genres"))
     ∧ styles r = VStr (joined_elements (found "styles"))
     ∧ records_ok full basic = true) ∧
    (forallb is_text (text_fields r) = true
     ∧ (absent "artists" full basic = true → artist r = VStr "")
     ∧ (absent "title" full basic = true → title r = VStr "")
     ∧ (lacks ci "date_added" = true → date_added r = VStr "")
     ∧ (absent "formats" full basic = true →
        variant r = VStr "" ∧ format r = VStr "")
     ∧ (absent "released" full basic = true →
        lacks basic "released_formatted" = true →
        lacks basic "year" = true → release_date r = VStr "")
     ∧ (absent "country" full basic = true → country r = VStr "")
     ∧ (absent "labels" full basic = true →
        label r = VStr "" ∧ catno r = VStr "")
     ∧ (absent "genres" full basic = true → genres r = VStr "")
     ∧ (absent "styles" full basic = true → styles r = VStr "")).
Proof.
  intros Hrun Hr.
  destruct (fetch_loop_rows float_str _ _ _ _ _ _ Hrun Hr)
    as [Hnil|(it & Hin & Hrow)]; [by apply elem_of_nil in Hnil|].
  apply fetch_row_inv in Hrow as (ci & full & Hci & Hfull & Hrow).
  exists it, ci, full. split; [done|]. split; [done|]. split; [done|].
  pose proof (assemble_row_fields float_str _ _ _ _ _ Hrow)
    as (_ & Hclean & Htext).
  apply assemble_row_inv in Hrow.
  destruct Hrow as (fs & v & a & date & lb & ls & cn & gs & g & ss & st
                    & Hfmt & Ha & Hdate & Hlb & Hls & Hcn & Hgs & Hg
                    & Hss & Hst & ->).
  injection Hdate as <-.
  apply summarize_formats_inv in Hfmt as (-> & -> & Hfok).
  apply join_names_inv in Ha as [-> Haok].
  apply join_names_inv in Hlb as [-> Hnok].
  destruct (catno_inv _ _ _ Hnok Hls Hcn) as [-> Hlok].
  destruct (joined_inv _ _ _ Hgs Hg) as [-> Hgok].
  destruct (joined_inv _ _ _ Hss Hst) as [-> Hsok].
  cbn [artist title date_added variant release_date country label format
       catno genres styles].
  split; [by repeat split|]. split.
  { repeat split; try done. unfold records_ok.
    by rewrite Haok, Hlok, Hfok, Hgok, Hsok. }
  split.
  { unfold text_fields. rewrite forallb_app, Htext, andb_true_r.
    by apply clean_texts. }
  split_and!.
  - intros [-> | ->]%(resolve_absent _ _ _ (VList []));
      apply f_equal, clean_text_blank.
  - intros [-> | ->]%(resolve_absent _ _ _ (VStr "")); [done|].
    apply f_equal, clean_text_blank.
  - by intros ->%lacks_get.
  - intros [-> | ->]%(resolve_absent _ _ _ (VList []));
      (split; [apply f_equal, clean_text_blank|done]).
  - intros H1 H2 H3. by rewrite released_value_absent.
  - intros [-> | ->]%(resolve_absent _ _ _ (VStr "")); [done|].
    apply f_equal, clean_text_blank.
  - intros [-> | ->]%(resolve_absent _ _ _ (VList []));
      (split; [apply f_equal, clean_text_blank|done]).
  - by intros [-> | ->]%(resolve_absent _ _ _ (VList [])).
  - by intros [-> | ->]%(resolve_absent _ _ _ (VList [])).
Qed.

End TextFields.

Lemma text_fields_normalized_witness :
  ∃ r,
    fetch_rows_with Samples.float_str true Samples.client [Samples.item_C]
    = Ok [r]
    ∧ title r = VStr ""
    ∧ label r = VStr "Blue Note"
    ∧ catno r = VStr ("BLP" +:+ String "009" "1577")
    ∧ genres r = VStr "Folk,  World".
Proof.
  eexists. split; [vm_compute; reflexivity|].
  edestruct (text_fields_normalized Samples.float_str true Samples.client
               [Samples.item_C]) as (it & ci & full & Hin & Hci & Hfull & H);
    [vm_compute; reflexivity|left|].
  apply list_elem_of_singleton in Hin as ->.
  injection Hci as <-. injection Hfull as <-.
  destruct H as ((_ & _ & _ & _ & _ & _ & Hlabel & _)
                 & (_ & Hcatno & Hgenres & _) & (_ & _ & Htitle & _)).
  split; [by apply Htitle|]. split; [exact Hlabel|].
  split; [exact Hcatno|exact Hgenres].
Defined.

(** ** The effects of a run *)

Lemma outcome_bind {A B} (m : traced A) (f : A → traced B) :
  outcome (m ≫= f) = outcome m ≫= λ a, outcome (f a).
Proof. unfold mbind, traced_bind. by destruct (outcome m). Qed.

Lemma log_bind_Ok {A B} (m : traced A) (f : A → traced B) a :
  outcome m = Ok a → log (m ≫= f) = log m ++ log (f a).
Proof. intros H. unfold mbind, traced_bind. by rewrite H. Qed.

Section Effects.
Variable float_str : float → string.

Lemma outcome_fetch_item include client it :
  outcome (fetch_item float_str include client it)
  = fetch_row float_str include client it.
Proof.
  unfold fetch_item, fetch_row. rewrite !outcome_bind. simpl.
  destruct (item_basic it) as [basic|e]; [|done]. rewrite !bind_Ok_l.
  rewrite outcome_bind. simpl.
  destruct (item_rel_id it) as [rel_id|e]; [|done]. rewrite !bind_Ok_l.
  destruct (truthy rel_id); simpl; [|done].
  rewrite outcome_bind.
  assert (Ht : outcome (if include then tell (Request rel_id) else mret tt)
               = Ok tt) by by destruct include.
  rewrite Ht, bind_Ok_l, outcome_bind. simpl.
  destruct (fetch_full include client rel_id) as [full|e]; [|done].
  rewrite !bind_Ok_l, outcome_bind. simpl.
  by destruct (assemble_row float_str rel_id (item_ci it) basic full).
Qed.

Lemma outcome_fetch_steps include client total releases i rows :
  outcome (fetch_steps float_str include client total releases i rows)
  = fetch_loop float_str include client releases rows.
Proof.
  revert i rows. induction releases as [|it rest IH]; intros i rows; [done|].
  cbn [fetch_steps fetch_loop]. rewrite outcome_bind, outcome_fetch_item.
  destruct (fetch_row float_str include client it) as [[r|]|e];
    [| |done]; rewrite !bind_Ok_l; [|apply IH].
  rewrite outcome_bind.
  assert (Ht : outcome (if (S i mod 25 =? 0)%nat
                        then tell (Progress (S i) total) else mret tt)
               = Ok tt) by by destruct (S i mod 25 =? 0)%nat.
  rewrite Ht, bind_Ok_l. apply IH.
Qed.

(** The two readings of the loop agree on the rows: logging an event
    always succeeds in [traced], so this holds by the way the effects are
    modelled and says nothing of a [print] that fails. *)
Lemma outcome_fetch_rows_traced include client username total releases :
  outcome (fetch_rows_traced float_str include client username total releases)
  = fetch_rows_with float_str include client releases.
Proof.
  unfold fetch_rows_traced, fetch_rows_with.
  rewrite outcome_bind. simpl. apply outcome_fetch_steps.
Qed.

Lemma log_fetch_item include client it o :
  fetch_row float_str include client it = Ok o →
  log (fetch_item float_str include client it)
  = Sleep SLEEP_BETWEEN_CALLS
    :: (if include && has_identity it then [Request (identity it)] else []).
Proof.
  unfold fetch_item, fetch_row. intros H.
  apply bind_Ok in H as (basic & Hb & H).
  apply bind_Ok in H as (rel_id & Hid & H).
  pose proof (item_rel_id_inv _ _ Hid) as Htr.
  pose proof (item_rel_id_identity _ _ Hid) as ->.
  rewrite (log_bind_Ok _ _ tt) by done. simpl. f_equal.
  rewrite (log_bind_Ok _ _ basic) by done. simpl.
  rewrite (log_bind_Ok _ _ (identity it)) by done. simpl.
  rewrite <- Htr. destruct (truthy (identity it)); simpl in *;
    [|by rewrite andb_false_r].
  rewrite andb_true_r.
  apply bind_Ok in H as (full & Hfull & H).
  apply bind_Ok in H as (r & Hr & H).
  rewrite (log_bind_Ok _ _ tt) by by destruct include.
  rewrite (log_bind_Ok _ _ full) by done. simpl.
  rewrite (log_bind_Ok _ _ r) by done. simpl.
  destruct include; by rewrite ?app_nil_r.
Qed.

Lemma log_fetch_steps include client total releases i rows rows' :
  fetch_loop float_str include client releases rows = Ok rows' →
  log (fetch_steps float_str include client total releases i rows)
  = rounds include total releases i.
Proof.
  revert i rows. induction releases as [|it rest IH]; intros i rows; [done|].
  cbn [fetch_steps fetch_loop rounds]. intros H.
  apply bind_Ok in H as (o & Ho & H).
  pose proof (fetch_row_emits float_str _ _ _ _ Ho) as Hiff.
  rewrite (log_bind_Ok _ _ o) by by rewrite outcome_fetch_item.
  rewrite (log_fetch_item _ _ _ _ Ho), <- app_comm_cons. f_equal. f_equal.
  destruct o as [r|].
  - assert (has_identity it = true) as -> by (apply Hiff; by eexists).
    simpl. rewrite (log_bind_Ok _ _ tt) by by destruct (_ =? _)%nat.
    rewrite (IH _ _ H). by destruct (_ =? _)%nat.
  - assert (has_identity it = false) as ->.
    { destruct (has_identity it); [|done].
      by destruct (proj2 Hiff eq_refl). }
    simpl. by apply IH.
Qed.

Lemma sleeps_rounds include total releases i :
  sleeps (rounds include total releases i) = length releases.
Proof.
  revert i. induction releases as [|it rest IH]; intros i; [done|].
  unfold sleeps in *. cbn [rounds]. rewrite filter_cons_True by done.
  cbn [length]. rewrite !filter_app, !length_app, IH.
  destruct (include && has_identity it),
    (has_identity it && (S i mod 25 =? 0)%nat);
    rewrite ?filter_cons_False, ?filter_nil by done; simpl; lia.
Qed.

Lemma requests_rounds include total releases i :
  requests (rounds include total releases i)
  = if include
    then identity <$> filter (λ it, has_identity it = true) releases
    else [].
Proof.
  revert i. induction releases as [|it rest IH]; intros i;
    [by destruct include|].
  unfold requests in *. cbn [rounds omap list_omap].
  rewrite !omap_app, IH, filter_cons.
  destruct include, (has_identity it) eqn:Hit; simpl; try done;
    by destruct (_ =? 0)%nat.
Qed.

Lemma pauses_rounds include total releases i :
  pauses (rounds include total releases i)
  = replicate (length releases) SLEEP_BETWEEN_CALLS.
Proof.
  revert i. induction releases as [|it rest IH]; intros i; [done|].
  unfold pauses in *. cbn [rounds omap list_omap length replicate].
  rewrite !omap_app, IH.
  by destruct (include && has_identity it),
    (has_identity it && (S i mod 25 =? 0)%nat).
Qed.

Lemma silent_rounds include total releases i :
  filter (λ e, is_progress e = false) (rounds include total releases i)
  = concat (round_events include <$> releases).
Proof.
  revert i. induction releases as [|it rest IH]; intros i; [done|].
  rewrite fmap_cons. cbn [rounds concat]. unfold round_events at 1.
  rewrite filter_cons_True by done. rewrite <- app_comm_cons. f_equal.
  rewrite !filter_app, IH.
  destruct (include && has_identity it),
    (has_identity it && (S i mod 25 =? 0)%nat);
    by rewrite ?filter_cons_True, ?filter_cons_False, ?filter_nil by done.
Qed.

(** In a run that returns, the log opens with the banner, and apart from
    the progress lines it is the banner followed, item by item in listing
    order, by the pause and then the detail request of the item.  So
    there is one pause for every item of the listing, skipped ones
    included, each of [SLEEP_BETWEEN_CALLS] seconds; and the detail
    requests are those for the release ids of the items that were not
    skipped, one each and in listing order, or none at all when the
    enrichment is switched off. *)
Theorem run_pauses_and_requests (include_full_release : bool)
    (client : value → reply) (username : string) (total : Z)
    (releases : list item) (rows : list row) :
  fetch_rows_with float_str include_full_release client releases = Ok rows →
  let events :=
    log (fetch_rows_traced float_str include_full_release client username
           total releases) in
  head events = Some (Banner username total) ∧
  filter (λ e, is_progress e = false) events
  = Banner username total
    :: concat (round_events include_full_release <$> releases) ∧
  pauses events = replicate (length releases) SLEEP_BETWEEN_CALLS ∧
  sleeps events = length releases ∧
  requests events
  = if include_full_release
    then identity <$> filter (λ it, has_identity it = true) releases
    else [].
Proof.
  intros Hrun. unfold fetch_rows_traced.
  rewrite (log_bind_Ok _ _ tt) by done. simpl.
  rewrite (log_fetch_steps _ _ _ _ _ _ _ Hrun).
  split; [done|]. split; [|split; [|split]].
  - rewrite filter_cons_True by done. f_equal. apply silent_rounds.
  - apply pauses_rounds.
  - unfold sleeps. rewrite filter_cons_False by done.
    apply sleeps_rounds.
  - apply requests_rounds.
Qed.

Lemma elem_of_rounds_Progress include total releases i j t :
  Progress j t ∈ rounds include total releases i ↔
  t = total ∧ (j mod 25 = 0)%nat ∧
  ∃ k it, releases !! k = Some it ∧ j = (i + k + 1)%nat
          ∧ has_identity it = true.
Proof.
  revert i. induction releases as [|it rest IH]; intros i; cbn [rounds].
  - rewrite elem_of_nil. split; [done|].
    intros (_ & _ & k & it' & Hk & _). by rewrite lookup_nil in Hk.
  - rewrite elem_of_cons, !elem_of_app, IH. split.
    + intros [?|[Hr|[Hp|(-> & Hmod & k & it' & Hk & -> & Hid)]]]; [done| | |].
      * destruct (include && has_identity it); [|by apply elem_of_nil in Hr].
        by apply list_elem_of_singleton in Hr.
      * destruct (has_identity it && (S i mod 25 =? 0)%nat) eqn:Hc;
          [|by apply elem_of_nil in Hp].
        apply andb_true_iff in Hc as [Hid Hmod].
        apply list_elem_of_singleton in Hp as [= -> ->].
        apply Nat.eqb_eq in Hmod. split; [done|]. split; [done|].
        exists 0, it. split; [done|]. split; [lia|done].
      * split; [done|]. split; [done|].
        exists (S k), it'. split; [done|]. split; [lia|done].
    + intros (-> & Hmod & k & it' & Hk & -> & Hid).
      destruct k as [|k].
      * injection Hk as ->. right. right. left.
        replace (i + 0 + 1)%nat with (S i) in Hmod |- * by lia.
        apply Nat.eqb_eq in Hmod. rewrite Hid, Hmod. by left.
      * right. right. right. split; [done|]. split; [done|].
        exists k, it'. split; [done|]. split; [lia|done].
Qed.

(** In a run that returns, a progress line is printed for the item in
    position [j] of the listing, counted from one, exactly when [j] is a
    multiple of 25 and that item was not skipped; it shows [j] and the
    total the folder reported. *)
Theorem run_progress (include_full_release : bool)
    (client : value → reply) (username : string) (total : Z)
    (releases : list item) (rows : list row) (j : nat) (t : Z) :
  fetch_rows_with float_str include_full_release client releases = Ok rows →
  Progress j t
  ∈ log (fetch_rows_traced float_str include_full_release client username
           total releases) ↔
  t = total ∧ (j mod 25 = 0)%nat ∧
  ∃ k it, releases !! k = Some it ∧ j = S k ∧ has_identity it = true.
Proof.
  intros Hrun. unfold fetch_rows_traced.
  rewrite (log_bind_Ok _ _ tt) by done. simpl.
  rewrite (log_fetch_steps _ _ _ _ _ _ _ Hrun).
  rewrite elem_of_cons, elem_of_rounds_Progress. split.
  - intros [?|(-> & Hmod & k & it & Hk & -> & Hid)]; [done|].
    split; [done|]. split; [done|]. exists k, it. split; [done|].
    split; [lia|done].
  - intros (-> & Hmod & k & it & Hk & -> & Hid). right.
    split; [done|]. split; [done|]. exists k, it. split; [done|].
    split; [lia|done].
Qed.

End Effects.

Lemma run_pauses_and_requests_witness :
  pauses (log (fetch_rows_traced Samples.float_str true Samples.client
                 "dj" 3 [Samples.item_A; Samples.item_D; Samples.item_B]))
  = [SLEEP_BETWEEN_CALLS; SLEEP_BETWEEN_CALLS; SLEEP_BETWEEN_CALLS]
  ∧ filter (λ e, is_progress e = false)
      (log (fetch_rows_traced Samples.float_str true Samples.client
              "dj" 3 [Samples.item_A; Samples.item_D; Samples.item_B]))
    = [Banner "dj" 3;
       Sleep SLEEP_BETWEEN_CALLS; Request (VInt 1);
       Sleep SLEEP_BETWEEN_CALLS;
       Sleep SLEEP_BETWEEN_CALLS; Request (VInt 2)]
  ∧ requests (log (fetch_rows_traced Samples.float_str true Samples.client
                     "dj" 3 [Samples.item_A; Samples.item_D; Samples.item_B]))
    = [VInt 1; VInt 2].
Proof.
  destruct (run_pauses_and_requests Samples.float_str true Samples.client
              "dj" 3 [Samples.item_A; Samples.item_D; Samples.item_B] _
              eq_refl) as (_ & Hlog & Hp & _ & Hr).
  split; [exact Hp|]. split; [exact Hlog|exact Hr].
Defined.

Lemma run_progress_witness :
  Progress 50 50
  ∈ log (fetch_rows_traced Samples.float_str false Samples.client "dj" 50
           Samples.fifty)
  ∧ Progress 25 50
    ∉ log (fetch_rows_traced Samples.float_str false Samples.client "dj" 50
             Samples.fifty).
Proof.
  assert (Hrun : ∃ rows,
    fetch_rows_with Samples.float_str false Samples.client Samples.fifty
    = Ok rows) by (eexists; vm_compute; reflexivity).
  destruct Hrun as [rows Hrun]. split.
  - apply (run_progress Samples.float_str false Samples.client "dj" 50
             Samples.fifty rows 50 50 Hrun).
    split; [done|]. split; [done|].
    exists 49, Samples.item_B. split; [reflexivity|]. split; reflexivity.
  - intros H.
    apply (run_progress Samples.float_str false Samples.client "dj" 50
             Samples.fifty rows 25 50 Hrun) in H.
    destruct H as (_ & _ & k & it & Hk & [= <-] & Hid).
    injection Hk as <-. discriminate Hid.
Defined.

(** ** Detail answers that add nothing *)

Section Transparent.
Variable float_str : float → string.

Lemma pick_absent key d basic dflt :
  dict_lookup key d = None →
  pick key (VDict d) basic dflt = pick key (VDict []) basic dflt.
Proof.
  intros Hk. unfold pick. rewrite get_or_empty. unfold dict_get.
  by rewrite Hk.
Qed.

Lemma assemble_row_absent rel_id ci basic d :
  (∀ k, k ∈ FULL_KEYS → dict_lookup k d = None) →
  assemble_row float_str rel_id ci basic (VDict d)
  = assemble_row float_str rel_id ci basic (VDict []).
Proof.
  intros Hd. unfold assemble_row. rewrite !get_or_empty.
  repeat first
    [ rewrite bind_Ok_l
    | rewrite (pick_absent _ d) by (apply Hd; unfold FULL_KEYS; set_solver)
    | match goal with
      | |- (?m ≫= _) = (?m ≫= _) => destruct m as [?|?]; [|done]
      | |- context [match ?p with (_, _) => _ end] => is_var p; destruct p
      end ].
  done.
Qed.

(** A detail answer that is falsy, or a record with none of the nine keys
    a row reads from the full record, leaves the round of the item as it
    is with the enrichment switched off. *)
Theorem empty_answer_transparent (client : value → reply) (it : item)
    (rel_id data : value) :
  item_rel_id it = Ok rel_id →
  client rel_id = Data data →
  truthy data = false
  ∨ (∃ d, data = VDict d ∧ ∀ k, k ∈ FULL_KEYS → dict_lookup k d = None) →
  fetch_row float_str true client it = fetch_row float_str false client it.
Proof.
  intros Hid Hc Hdata. unfold fetch_row. rewrite Hid.
  destruct (item_basic it) as [basic|e]; [|done]. rewrite !bind_Ok_l.
  destruct (truthy rel_id); [simpl|done]. rewrite Hc, !bind_Ok_l.
  destruct Hdata as [Hfalse|(d & -> & Hd)].
  - unfold py_or. by rewrite Hfalse.
  - assert (py_or (VDict d) (VDict []) = VDict d) as -> by by destruct d.
    by rewrite assemble_row_absent.
Qed.

(** ** The client is asked about the listed releases only *)

Lemma fetch_row_client include client client' it :
  client (identity it) = client' (identity it) →
  fetch_row float_str include client it
  = fetch_row float_str include client' it.
Proof.
  intros Hc. unfold fetch_row.
  destruct (item_basic it) as [basic|e]; [|done]. rewrite !bind_Ok_l.
  destruct (item_rel_id it) as [rel_id|e] eqn:Hid; [|done].
  rewrite !bind_Ok_l. apply item_rel_id_identity in Hid as ->.
  destruct (truthy (identity it)); [simpl|done].
  unfold fetch_full. by rewrite Hc.
Qed.

(** A run depends on the client only through its answers for the release
    ids of the listed items: two clients that answer alike there give the
    same rows or the same exception, so a failing request for one release
    changes nothing in the rows of the others. *)
Theorem fetch_rows_client (include_full_release : bool)
    (client client' : value → reply) (releases : list item) :
  Forall (λ it, client (identity it) = client' (identity it)) releases →
  fetch_rows_with float_str include_full_release client releases
  = fetch_rows_with float_str include_full_release client' releases.
Proof.
  unfold fetch_rows_with. generalize (@nil row). intros acc H. revert acc.
  induction H as [|it rest Hit _ IH]; intros acc; [done|]. simpl.
  rewrite (fetch_row_client _ _ _ _ Hit).
  destruct (fetch_row float_str include_full_release client' it) as [o|e];
    [|done].
  rewrite !bind_Ok_l. apply IH.
Qed.

End Transparent.

Lemma empty_answer_transparent_witness :
  fetch_row Samples.float_str true
    (λ _, Data (VDict [("identifiers", VList Samples.identifiers)]))
    Samples.item_B
  = fetch_row Samples.float_str false
      (λ _, Data (VDict [("identifiers", VList Samples.identifiers)]))
      Samples.item_B.
Proof.
  apply (empty_answer_transparent Samples.float_str _ Samples.item_B (VInt 2)
           (VDict [("identifiers", VList Samples.identifiers)]));
    [reflexivity|reflexivity|].
  right. eexists. split; [reflexivity|].
  intros k Hk. unfold FULL_KEYS in Hk.
  repeat (apply elem_of_cons in Hk as [->|Hk]; [reflexivity|]).
  by apply elem_of_nil in Hk.
Defined.

Lemma fetch_rows_client_witness :
  fetch_rows_with Samples.float_str true Samples.client
    [Samples.item_A; Samples.item_D]
  = fetch_rows_with Samples.float_str true
      (λ rel_id, match rel_id with
                 | VInt 2 => Failure
                 | _ => Samples.client rel_id
                 end)
      [Samples.item_A; Samples.item_D].
Proof.
  apply fetch_rows_client. repeat constructor.
Defined.
